(** * SPL_Meter: the A-weighted sound-level pipeline of AcoustiVision

    A shallow embedding of [SPL_Meter.h] / [SPL_Meter.cpp].

    Number model.  [uint32_t] values are integers in [Z] and the wrap-around
    of the 32-bit accumulator is written out with [mod 2^32].  [float32_t]
    values are real numbers: every float operation is the exact real
    operation it approximates (rounding, infinities and NaN are outside the
    model), [sqrtf] is [sqrt], [powf] is [Rpower] and [log10f x] is
    [ln x / ln 10].  On the samples the buffer holds, codes of the 12-bit
    converter, the casts, the mean and the centring of steps 1 and 2 are exact
    in float32 as well, so the model and the code agree there to the last
    bit; on larger values the casts round and the model does not follow
    them.  Where a property turns on rounding itself, the float32 operations
    are taken from [SpecFloat] (module [F32]).  The decimal literals of the
    three coefficient tables are kept as rationals, so that facts about the
    tables are decided by evaluation, and enter the real arithmetic through
    [Q2R].

    The CMSIS-DSP transform [arm_rfft_fast_f32] is a library routine outside
    the repository: the pipeline takes it as a parameter. *)

From Stdlib Require Import Reals ZArith List Lia Lra QArith Qreals.
From Stdlib Require Import Floats.SpecFloat.
Import ListNotations.

(** ** Coefficient tables *)

(** C aggregate initialisation of [T a[n] = { inits }]: the listed values
    come first and the remaining elements are zero-initialised. *)
Definition array_init (n : nat) (inits : list Q) : list Q :=
  inits ++ repeat (0%Q) (n - length inits).

(** The initialisers of [HANN_WINDOW_LUT] as listed in the source. *)
Definition HANN_WINDOW_initializers : list Q := [
    0.00000; 0.00015; 0.00061; 0.00137; 0.00244; 0.00381; 0.00548; 0.00745; 0.00972; 0.01228;
    0.01513; 0.01827; 0.02169; 0.02539; 0.02937; 0.03362; 0.03813; 0.04290; 0.04793; 0.05320;
    0.05872; 0.06448; 0.07048; 0.07671; 0.08317; 0.08986; 0.09677; 0.10390; 0.11124; 0.11879;
    0.12655; 0.13451; 0.14266; 0.15099; 0.15951; 0.16821; 0.17709; 0.18613; 0.19534; 0.20471;
    0.21423; 0.22390; 0.23371; 0.24366; 0.25374; 0.26395; 0.27428; 0.28472; 0.29528; 0.30594;
    0.31670; 0.32756; 0.33850; 0.34954; 0.36066; 0.37186; 0.38313; 0.39447; 0.40588; 0.41734;
    0.42886; 0.44042; 0.45203; 0.46368; 0.47536; 0.48708; 0.49882; 0.51058; 0.52236; 0.53415;
    0.54595; 0.55775; 0.56956; 0.58136; 0.59315; 0.60493; 0.61670; 0.62844; 0.64017; 0.65187;
    0.66355; 0.67520; 0.68681; 0.69838; 0.70991; 0.72139; 0.73281; 0.74418; 0.75548; 0.76672;
    0.77789; 0.78898; 0.80000; 0.81093; 0.82177; 0.83251; 0.84315; 0.85368; 0.86410; 0.87440;
    0.88458; 0.89464; 0.90457; 0.91436; 0.92402; 0.93354; 0.94291; 0.95212; 0.96116; 0.97004;
    0.97874; 0.98726; 0.99560; 1.00000; 0.99560; 0.98726; 0.97874; 0.97004; 0.96116; 0.95212;
    0.94291; 0.93354; 0.92402; 0.91436; 0.90457; 0.89464; 0.88458; 0.87440; 0.86410; 0.85368;
    0.84315; 0.83251; 0.82177; 0.81093; 0.80000; 0.78898; 0.77789; 0.76672; 0.75548; 0.74418;
    0.73281; 0.72139; 0.70991; 0.69838; 0.68681; 0.67520; 0.66355; 0.65187; 0.64017; 0.62844;
    0.61670; 0.60493; 0.59315; 0.58136; 0.56956; 0.55775; 0.54595; 0.53415; 0.52236; 0.51058;
    0.49882; 0.48708; 0.47536; 0.46368; 0.45203; 0.44042; 0.42886; 0.41734; 0.40588; 0.39447;
    0.38313; 0.37186; 0.36066; 0.34954; 0.33850; 0.32756; 0.31670; 0.30594; 0.29528; 0.28472;
    0.27428; 0.26395; 0.25374; 0.24366; 0.23371; 0.22390; 0.21423; 0.20471; 0.19534; 0.18613;
    0.17709; 0.16821; 0.15951; 0.15099; 0.14266; 0.13451; 0.12655; 0.11879; 0.11124; 0.10390;
    0.09677; 0.08986; 0.08317; 0.07671; 0.07048; 0.06448; 0.05872; 0.05320; 0.04793; 0.04290;
    0.03813; 0.03362; 0.02937; 0.02539; 0.02169; 0.01827; 0.01513; 0.01228; 0.00972; 0.00745;
    0.00548; 0.00381; 0.00244; 0.00137; 0.00061; 0.00015
  ]%Q.

(** [static const float32_t HANN_WINDOW_LUT[256] = { ... }]. *)
Definition HANN_WINDOW_LUT : list Q := array_init 256 HANN_WINDOW_initializers.

(** The initialisers of [A_WEIGHTING_LUT_SQUARED] as listed in the source. *)
Definition A_WEIGHTING_initializers : list Q := [
    0.1287; 0.2120; 0.3162; 0.4365; 0.5623; 0.6813; 0.7852; 0.8692; 0.9333; 0.9772;
    1.0000; 1.0000; 0.9853; 0.9661; 0.9333; 0.8913; 0.8414; 0.7852; 0.7244; 0.6607;
    0.5957; 0.5309; 0.4677; 0.4074; 0.3548; 0.3020; 0.2512; 0.2000; 0.1585; 0.1259;
    0.1000; 0.0794; 0.0631; 0.0501; 0.0400; 0.0316; 0.0251; 0.0200; 0.0158; 0.0126;
    0.0100; 0.0079; 0.0063; 0.0050; 0.0040; 0.0032; 0.0025; 0.0020; 0.0016; 0.0013;
    0.0010; 0.0008; 0.0006; 0.0005; 0.0004; 0.0003; 0.0003; 0.0002; 0.0002; 0.0001;
    0.0001; 0.0001; 0.0001; 0.0001; 0.0000; 0.0000; 0.0000; 0.0000; 0.0000; 0.0000;
    0.0000; 0.0000; 0.0000; 0.0000; 0.0000; 0.0000; 0.0000; 0.0000; 0.0000; 0.0000;
    0.0000; 0.0000; 0.0000; 0.0000; 0.0000; 0.0000; 0.0000; 0.0000; 0.0000; 0.0000;
    0.0000; 0.0000; 0.0000; 0.0000; 0.0000; 0.0000; 0.0000; 0.0000; 0.0000; 0.0000;
    0.0000; 0.0000; 0.0000; 0.0000; 0.0000; 0.0000; 0.0000; 0.0000; 0.0000; 0.0000;
    0.0000; 0.0000; 0.0000; 0.0000; 0.0000; 0.0000; 0.0000; 0.0000
  ]%Q.

(** [static const float32_t A_WEIGHTING_LUT_SQUARED[128] = { ... }]. *)
Definition A_WEIGHTING_LUT_SQUARED : list Q := array_init 128 A_WEIGHTING_initializers.

(** The initialisers of [MIC_CORRECTION_LUT_SQUARED] as listed in the source. *)
Definition MIC_CORRECTION_initializers : list Q := [
    1.1834; 1.1220; 1.0965; 1.0715; 1.0471; 1.0233; 1.0000; 0.9886; 0.9772; 0.9772;
    0.9772; 0.9886; 0.9886; 0.9886; 1.0000; 1.0000; 1.0000; 1.0000; 0.9886; 0.9886;
    0.9886; 0.9772; 0.9772; 0.9772; 0.9661; 0.9661; 0.9550; 0.9550; 0.9441; 0.9441;
    0.9333; 0.9333; 0.9226; 0.9226; 0.9120; 0.9120; 0.9016; 0.9016; 0.8913; 0.8913;
    0.8810; 0.8810; 0.8710; 0.8710; 0.8610; 0.8610; 0.8511; 0.8511; 0.8414; 0.8414;
    0.8318; 0.8318; 0.8222; 0.8222; 0.8128; 0.8128; 0.8035; 0.8035; 0.7943; 0.7943;
    0.7852; 0.7852; 0.7762; 0.7762; 0.7674; 0.7674; 0.7586; 0.7586; 0.7499; 0.7499;
    0.7413; 0.7413; 0.7328; 0.7328; 0.7244; 0.7244; 0.7161; 0.7161; 0.7079; 0.7079;
    0.6998; 0.6998; 0.6918; 0.6918; 0.6839; 0.6839; 0.6761; 0.6761; 0.6683; 0.6683;
    0.6607; 0.6607; 0.6531; 0.6531; 0.6457; 0.6457; 0.6383; 0.6383; 0.6310; 0.6310;
    0.6237; 0.6237; 0.6166; 0.6166; 0.6095; 0.6095; 0.6026; 0.6026; 0.5957; 0.5957;
    0.5888; 0.5888; 0.5821; 0.5821; 0.5754; 0.5754; 0.5688; 0.5688; 0.5623; 0.5623;
    0.5559; 0.5559; 0.5495; 0.5495; 0.5433; 0.5433; 0.5370; 0.5370
  ]%Q.

(** [static const float32_t MIC_CORRECTION_LUT_SQUARED[128] = { ... }]. *)
Definition MIC_CORRECTION_LUT_SQUARED : list Q := array_init 128 MIC_CORRECTION_initializers.

(** The value a table holds at index [i], as a real number. *)
Definition lut (table : list Q) (i : nat) : R := Q2R (nth i table 0%Q).

Local Open Scope R_scope.

(** ** Constants and configuration ([SPL_Meter.h]) *)

Definition NUM_SAMPLES : Z := 256.
Definition SAMPLING_FREQUENCY : Z := 16000.
Definition ADC_REF_VOLTAGE : R := 3.3.
Definition ADC_RESOLUTION : Z := 4096.
Definition SMOOTHING_FACTOR : R := 0.1.
Definition CALIBRATION_OFFSET_DB : R := -30.0.

(** [uint32_t] arithmetic: a sum is reduced modulo [2^32]. *)
Definition wrap32 (z : Z) : Z := (z mod 2 ^ 32)%Z.

(** A value the type [uint32_t] can hold. *)
Definition is_uint32 (z : Z) : Prop := (0 <= z < 2 ^ 32)%Z.

(** The math library, on real numbers. *)
Definition sqrtf (x : R) : R := sqrt x.
Definition powf (x y : R) : R := Rpower x y.
Definition log10f (x : R) : R := ln x / ln 10.

(** ** The object state

    The two level readings and the two working buffers the transform reads
    and writes.  [m_mag_sq_buffer] is declared in the class and never read
    or written by any method; [m_fft_instance] is set up once by [begin] and
    is part of the transform parameter below. *)
Record SPL_Meter : Type := mkSPL_Meter {
  m_latest_dba_spl : R;
  m_smoothed_dba_spl : R;
  m_fft_input_buffer : list R;
  m_fft_output_buffer : list R
}.

(** [SPL_Meter::SPL_Meter()]: both readings start at zero.  The working
    buffers are indeterminate in C++ until [process] fills them; [b_in] and
    [b_out] stand for that content. *)
Definition SPL_Meter_ctor (b_in b_out : list R) : SPL_Meter :=
  mkSPL_Meter 0 0 b_in b_out.

(** [SPL_Meter::getSmoothedDbaSpl]. *)
Definition getSmoothedDbaSpl (m : SPL_Meter) : R := m_smoothed_dba_spl m.

(** ** Step 1: dynamic DC offset *)

(** [raw_buffer[i]]. *)
Definition raw_at (raw_buffer : list Z) (i : nat) : Z := nth i raw_buffer 0%Z.

(** [uint32_t sum = 0; for (i = 0; i < NUM_SAMPLES; i++) sum += raw_buffer[i];] *)
Definition buffer_sum (raw_buffer : list Z) : Z :=
  fold_left (fun sum i => wrap32 (sum + raw_at raw_buffer i))
            (seq 0 (Z.to_nat NUM_SAMPLES)) 0%Z.

(** [(float)sum / NUM_SAMPLES]. *)
Definition dynamic_dc_offset (raw_buffer : list Z) : R :=
  IZR (buffer_sum raw_buffer) / IZR NUM_SAMPLES.

(** ** Step 2: centre and window *)

(** [sample = (float32_t)raw_buffer[i] - dynamic_dc_offset]. *)
Definition centered_sample (raw_buffer : list Z) (i : nat) : R :=
  IZR (raw_at raw_buffer i) - dynamic_dc_offset raw_buffer.

(** The DC-removed signal: [sample] for every index of the second loop. *)
Definition centered_signal (raw_buffer : list Z) : list R :=
  map (centered_sample raw_buffer) (seq 0 (Z.to_nat NUM_SAMPLES)).

(** [m_fft_input_buffer[i] = sample * HANN_WINDOW_LUT[i]] for every [i]. *)
Definition windowed_input (raw_buffer : list Z) : list R :=
  map (fun i => centered_sample raw_buffer i * lut HANN_WINDOW_LUT i)
      (seq 0 (Z.to_nat NUM_SAMPLES)).

(** ** Steps 4-6: weighted energy of the packed spectrum *)

(** The body of the accumulation loop for bin [i]. *)
Definition weighted_mag_sq (fft_output : list R) (i : nat) : R :=
  let real := nth (2 * i) fft_output 0 in
  let imag := nth (2 * i + 1) fft_output 0 in
  let mag_sq := (real * real) + (imag * imag) in
  mag_sq * lut A_WEIGHTING_LUT_SQUARED i * lut MIC_CORRECTION_LUT_SQUARED i.

(** [total_energy = 0; for (i = 1; i < NUM_SAMPLES / 2; i++) total_energy += ...]. *)
Definition total_energy (fft_output : list R) : R :=
  fold_left (fun total i => total + weighted_mag_sq fft_output i)
            (seq 1 (Z.to_nat (NUM_SAMPLES / 2) - 1)) 0.

(** ** Step 7: energy to dBA *)

Definition mean_sq_adc (energy : R) : R :=
  (energy * 2) / IZR (NUM_SAMPLES * NUM_SAMPLES).
Definition rms_adc (energy : R) : R := sqrtf (mean_sq_adc energy).
Definition rms_voltage (energy : R) : R :=
  (rms_adc energy / IZR ADC_RESOLUTION) * ADC_REF_VOLTAGE.
Definition sensitivity_V_Pa : R := powf 10 (-38 / 20).
Definition pressure_Pa (energy : R) : R := rms_voltage energy / sensitivity_V_Pa.

(** Which branch of [if (total_energy <= 0.0f)] ran, and for the [else]
    branch the argument handed to [log10f]. *)
Inductive conversion : Type :=
| Silence : conversion
| Logarithm (argument : R) : conversion.

Definition energy_conversion (energy : R) : conversion :=
  if Rle_dec energy 0 then Silence
  else Logarithm (pressure_Pa energy / 20e-6).

(** The value assigned to [m_latest_dba_spl] in each branch. *)
Definition conversion_level (c : conversion) : R :=
  match c with
  | Silence => 0
  | Logarithm argument => 20 * log10f argument + CALIBRATION_OFFSET_DB
  end.

Definition energy_to_dba (energy : R) : R :=
  conversion_level (energy_conversion energy).

(** ** Step 8: exponential moving average *)

Definition ema_update (latest smoothed : R) : R :=
  (SMOOTHING_FACTOR * latest) + ((1 - SMOOTHING_FACTOR) * smoothed).

(** ** [SPL_Meter::process] *)

Section Pipeline.

(** [arm_rfft_fast_f32(&m_fft_instance, in, out, 0)]: from the 256 input
    samples to the 256 packed output values. *)
Variable arm_rfft_fast_f32 : list R -> list R.

(** Steps 1-2 fill [m_fft_input_buffer]. *)
Definition fill_fft_input (m : SPL_Meter) (raw_buffer : list Z) : SPL_Meter :=
  mkSPL_Meter (m_latest_dba_spl m) (m_smoothed_dba_spl m)
              (windowed_input raw_buffer) (m_fft_output_buffer m).

(** Step 3 fills [m_fft_output_buffer] from [m_fft_input_buffer]. *)
Definition run_fft (m : SPL_Meter) : SPL_Meter :=
  mkSPL_Meter (m_latest_dba_spl m) (m_smoothed_dba_spl m)
              (m_fft_input_buffer m)
              (arm_rfft_fast_f32 (m_fft_input_buffer m)).

(** Steps 4-7 assign [m_latest_dba_spl]. *)
Definition store_latest (m : SPL_Meter) : SPL_Meter :=
  mkSPL_Meter (energy_to_dba (total_energy (m_fft_output_buffer m)))
              (m_smoothed_dba_spl m)
              (m_fft_input_buffer m) (m_fft_output_buffer m).

(** Step 8 assigns [m_smoothed_dba_spl]. *)
Definition smooth (m : SPL_Meter) : SPL_Meter :=
  mkSPL_Meter (m_latest_dba_spl m)
              (ema_update (m_latest_dba_spl m) (m_smoothed_dba_spl m))
              (m_fft_input_buffer m) (m_fft_output_buffer m).

Definition process (m : SPL_Meter) (raw_buffer : list Z) : SPL_Meter :=
  smooth (store_latest (run_fft (fill_fft_input m raw_buffer))).

(** The accumulated [total_energy] of one call, from the buffer alone. *)
Definition buffer_energy (raw_buffer : list Z) : R :=
  total_energy (arm_rfft_fast_f32 (windowed_input raw_buffer)).

(** [process] called on the same buffer [n] times in a row. *)
Fixpoint process_repeat (n : nat) (m : SPL_Meter) (raw_buffer : list Z) : SPL_Meter :=
  match n with
  | O => m
  | S k => process (process_repeat k m raw_buffer) raw_buffer
  end.

End Pipeline.

(** ** Buffers and sums used to state the properties *)

(** A buffer as the caller supplies it: [NUM_SAMPLES] values of type
    [uint32_t]. *)
Definition valid_buffer (raw_buffer : list Z) : Prop :=
  length raw_buffer = Z.to_nat NUM_SAMPLES /\ Forall is_uint32 raw_buffer.

(** The same, as a check that evaluates. *)
Definition valid_bufferb (raw_buffer : list Z) : bool :=
  (length raw_buffer =? Z.to_nat NUM_SAMPLES)%nat &&
  forallb (fun x => (0 <=? x)%Z && (x <? 2 ^ 32)%Z) raw_buffer.

(** The buffer whose samples all equal [c]. *)
Definition constant_buffer (c : Z) : list Z := repeat c (Z.to_nat NUM_SAMPLES).

(** The buffer with [c] added to every sample. *)
Definition add_offset (c : Z) (raw_buffer : list Z) : list Z :=
  map (fun x => (x + c)%Z) raw_buffer.

(** A buffer resting at [base] with the single sample at index 113, where
    the window coefficient is 1, raised by [a]. *)
Definition impulse_buffer (base a : Z) : list Z :=
  repeat base 113 ++ (base + a)%Z :: repeat base 142.

(** The sum the first loop would reach in unbounded integers. *)
Definition true_sum (raw_buffer : list Z) : Z :=
  fold_left (fun sum i => (sum + raw_at raw_buffer i)%Z)
            (seq 0 (Z.to_nat NUM_SAMPLES)) 0%Z.

(** Boolean checks over an index range [lo, lo + count). *)
Definition range_all (p : nat -> bool) (lo count : nat) : bool :=
  forallb p (seq lo count).


(** ** The weighted energy as the specification words it

    The sum, over bins 1 to N/2-1, of (real^2 + imag^2) of the bin
    multiplied by the product of the perceptual-weighting and the
    transducer-correction coefficient of the bin. *)

Definition bin_power (fft_output : list R) (i : nat) : R :=
  (nth (2 * i) fft_output 0) ^ 2 + (nth (2 * i + 1) fft_output 0) ^ 2.

Fixpoint sum_bins (f : nat -> R) (first count : nat) : R :=
  match count with
  | O => 0
  | S k => f first + sum_bins f (S first) k
  end.

Definition weighted_bin_sum (fft_output : list R) : R :=
  sum_bins (fun i => bin_power fft_output i *
                     (lut A_WEIGHTING_LUT_SQUARED i * lut MIC_CORRECTION_LUT_SQUARED i))
           1 127.

(** ** The smoothing filter fed the same level [n] times *)

Definition ema_iterate (level s0 : R) (n : nat) : R :=
  Nat.iter n (ema_update level) s0.

(** ** A reference transform *)

(** The sum of [f 0 .. f (n-1)]. *)
Fixpoint Rsum (f : nat -> R) (n : nat) : R :=
  match n with
  | O => 0
  | S k => Rsum f k + f k
  end.

Definition dft_angle (k n : nat) : R := 2 * PI * INR k * INR n / 256.

(** Real and imaginary part of bin [k] of the 256-point discrete Fourier
    transform of [x]. *)
Definition dft_re (x : list R) (k : nat) : R :=
  Rsum (fun n => nth n x 0 * cos (dft_angle k n)) 256.
Definition dft_im (x : list R) (k : nat) : R :=
  - Rsum (fun n => nth n x 0 * sin (dft_angle k n)) 256.

Definition rfft_slot (x : list R) (j : nat) : R :=
  match j with
  | O => dft_re x 0
  | S O => dft_re x 128
  | _ => if Nat.even j then dft_re x (j / 2) else dft_im x (j / 2)
  end.

(** Modelled from the spec: the forward real-input transform that
    [arm_rfft_fast_f32] computes, missing from the repository's sources, as
    the exact discrete Fourier transform "producing N/2 complex frequency
    bins packed as alternating real/imaginary pairs": slots [2k] and
    [2k+1] hold the real and the imaginary part of bin [k]; slot 1, the
    imaginary part of the real-valued bin 0, holds the real-valued bin N/2
    as in the CMSIS packing.  It instantiates the transform parameter where
    a concrete transform is needed. *)
Definition rfft_reference (x : list R) : list R :=
  map (rfft_slot x) (seq 0 256).

(** ** Exact evaluation of bin 32

    The twiddle factors of bin 32 are the cosines of multiples of pi/4, so on
    a rational input its real part is a number [a + b / sqrt 2] with
    rational [a] and [b]. *)

Definition QS : Type := (Q * Q)%type.

Definition QS_value (z : QS) : R := Q2R (fst z) + Q2R (snd z) * / sqrt 2.

Definition QS_add (y z : QS) : QS :=
  (Qred (fst y + fst z), Qred (snd y + snd z))%Q.

Definition QS_scale (q : Q) (z : QS) : QS := (q * fst z, q * snd z)%Q.

(** [cos (r * pi / 4)] for [r < 8]. *)
Definition cos_quarter (r : nat) : QS :=
  match r with
  | 0%nat => (1, 0)%Q
  | 1%nat => (0, 1)%Q
  | 2%nat => (0, 0)%Q
  | 3%nat => (0, -1)%Q
  | 4%nat => (-1, 0)%Q
  | 5%nat => (0, -1)%Q
  | 6%nat => (0, 0)%Q
  | _ => (0, 1)%Q
  end.

Fixpoint QS_sum (f : nat -> QS) (n : nat) : QS :=
  match n with
  | O => (0, 0)%Q
  | S k => QS_add (QS_sum f k) (f k)
  end.

Definition bin32_re_Q (x : list Q) : QS :=
  QS_sum (fun n => QS_scale (nth n x 0%Q) (cos_quarter (n mod 8))) 256.

(** The input of the transform, in rationals. *)
Definition centered_sample_Q (raw_buffer : list Z) (i : nat) : Q :=
  (inject_Z (raw_at raw_buffer i)
   - inject_Z (buffer_sum raw_buffer) / inject_Z NUM_SAMPLES)%Q.

Definition windowed_input_Q (raw_buffer : list Z) : list Q :=
  map (fun i => (centered_sample_Q raw_buffer i * nth i HANN_WINDOW_LUT 0)%Q)
      (seq 0 (Z.to_nat NUM_SAMPLES)).

(** ** The meter driven by a caller *)

(** [process] called on each buffer of a list in turn, as the acquisition
    loop does with the buffers it captures. *)
Definition process_all (fft : list R -> list R)
           (m : SPL_Meter) (buffers : list (list Z)) : SPL_Meter :=
  fold_left (process fft) buffers m.

(** The instantaneous level [process] assigns for a buffer. *)
Definition buffer_level (fft : list R -> list R) (raw_buffer : list Z) : R :=
  energy_to_dba (buffer_energy fft raw_buffer).

(** How many times the 32-bit accumulator of the first loop wraps. *)
Definition wrap_count (raw_buffer : list Z) : Z :=
  (true_sum raw_buffer / 2 ^ 32)%Z.

(** The sum of a list of reals. *)
Definition Rlist_sum (l : list R) : R := fold_right Rplus 0 l.

(** The buffer [raw_buffer] with the sample at index [i] replaced by [v]. *)
Fixpoint set_sample (raw_buffer : list Z) (i : nat) (v : Z) : list Z :=
  match raw_buffer, i with
  | [], _ => []
  | _ :: rest, O => v :: rest
  | x :: rest, S k => x :: set_sample rest k v
  end.

(** A buffer of [NUM_SAMPLES] codes of the 12-bit converter: each below
    [ADC_RESOLUTION]. *)
Definition adc_buffer (raw_buffer : list Z) : Prop :=
  length raw_buffer = Z.to_nat NUM_SAMPLES /\
  Forall (fun x => (0 <= x < ADC_RESOLUTION)%Z) raw_buffer.

(** The same, as a check that evaluates. *)
Definition adc_bufferb (raw_buffer : list Z) : bool :=
  (length raw_buffer =? Z.to_nat NUM_SAMPLES)%nat &&
  forallb (fun x => (0 <=? x)%Z && (x <? ADC_RESOLUTION)%Z) raw_buffer.

(** The energy at which the logarithmic branch crosses level 0: the one
    whose [log10f] argument is [10^(3/2)], so that 20 * 3/2 cancels the
    calibration offset of -30. *)
Definition zero_level_energy : R :=
  32768 * (Rpower 10 (3 / 2) /
           (ADC_REF_VOLTAGE / IZR ADC_RESOLUTION / sensitivity_V_Pa / 20e-6)) ^ 2.

(** ** The head of the conversion in float32

    Lines 150 to 154 with the operations of IEEE 754 binary32 (24 bits of
    precision, exponents below 128, round to nearest even) as [SpecFloat]
    defines them.  Lines 155 to 159 compute the level from [rms_adc] and
    constants alone, through [powf] and [log10f] of the C library; they
    enter as the function [after_rms]. *)
Module F32.

Definition prec : Z := 24%Z.
Definition emax : Z := 128%Z.

(** The float32 an integer converts to. *)
Definition of_Z (z : Z) : spec_float := binary_normalize prec emax z 0%Z false.

(** [(total_energy * 2.0f) / (NUM_SAMPLES * NUM_SAMPLES)]. *)
Definition mean_sq_adc (energy : spec_float) : spec_float :=
  SFdiv prec emax (SFmul prec emax energy (of_Z 2))
        (of_Z (NUM_SAMPLES * NUM_SAMPLES)).

(** [sqrtf(mean_sq_adc)]. *)
Definition rms_adc (energy : spec_float) : spec_float :=
  SFsqrt prec emax (mean_sq_adc energy).

(** The value assigned to [m_latest_dba_spl]. *)
Definition energy_to_dba (after_rms : spec_float -> spec_float)
           (energy : spec_float) : spec_float :=
  if SFleb energy (S754_zero false) then S754_zero false
  else after_rms (rms_adc energy).


End F32.
(** ** Facts about the tables, decided by evaluation *)

Lemma range_all_spec (p : nat -> bool) (lo count i : nat) :
  range_all p lo count = true -> (lo <= i < lo + count)%nat -> p i = true.
Proof.
  unfold range_all. rewrite forallb_forall. intros H Hi.
  apply H, in_seq. exact Hi.
Qed.

Lemma lut_zero (table : list Q) (i : nat) :
  Qeq_bool (nth i table 0%Q) 0%Q = true -> lut table i = 0.
Proof.
  intros H. unfold lut. apply Qeq_bool_eq in H.
  rewrite (Qeq_eqR _ _ H). exact RMicromega.Q2R_0.
Qed.

Lemma lut_nonneg (table : list Q) (i : nat) :
  Qle_bool 0%Q (nth i table 0%Q) = true -> 0 <= lut table i.
Proof.
  intros H. unfold lut. apply Qle_bool_imp_le, Qle_Rle in H.
  rewrite RMicromega.Q2R_0 in H. exact H.
Qed.

Lemma hann_tail_zero (i : nat) :
  (226 <= i)%nat -> lut HANN_WINDOW_LUT i = 0.
Proof.
  intros Hi. destruct (Nat.lt_ge_cases i 256) as [Hlt | Hge].
  - apply lut_zero.
    apply (range_all_spec
             (fun j => Qeq_bool (nth j HANN_WINDOW_LUT 0%Q) 0%Q) 226 30).
    + vm_compute. reflexivity.
    + lia.
  - unfold lut. rewrite nth_overflow; [exact RMicromega.Q2R_0 | exact Hge].
Qed.

Lemma a_weighting_upper_zero (i : nat) :
  (64 <= i)%nat -> lut A_WEIGHTING_LUT_SQUARED i = 0.
Proof.
  intros Hi. destruct (Nat.lt_ge_cases i 128) as [Hlt | Hge].
  - apply lut_zero.
    apply (range_all_spec
             (fun j => Qeq_bool (nth j A_WEIGHTING_LUT_SQUARED 0%Q) 0%Q) 64 64).
    + vm_compute. reflexivity.
    + lia.
  - unfold lut. rewrite nth_overflow; [exact RMicromega.Q2R_0 | exact Hge].
Qed.

Lemma a_weighting_nonneg (i : nat) : 0 <= lut A_WEIGHTING_LUT_SQUARED i.
Proof.
  destruct (Nat.lt_ge_cases i 128) as [Hlt | Hge].
  - apply lut_nonneg.
    apply (range_all_spec
             (fun j => Qle_bool 0%Q (nth j A_WEIGHTING_LUT_SQUARED 0%Q)) 0 128).
    + vm_compute. reflexivity.
    + lia.
  - unfold lut. rewrite nth_overflow; [rewrite RMicromega.Q2R_0; lra | exact Hge].
Qed.

Lemma mic_correction_nonneg (i : nat) : 0 <= lut MIC_CORRECTION_LUT_SQUARED i.
Proof.
  destruct (Nat.lt_ge_cases i 128) as [Hlt | Hge].
  - apply lut_nonneg.
    apply (range_all_spec
             (fun j => Qle_bool 0%Q (nth j MIC_CORRECTION_LUT_SQUARED 0%Q)) 0 128).
    + vm_compute. reflexivity.
    + lia.
  - unfold lut. rewrite nth_overflow; [rewrite RMicromega.Q2R_0; lra | exact Hge].
Qed.

(** ** The first two loops *)

Lemma num_samples_nat : Z.to_nat NUM_SAMPLES = 256%nat.
Proof. reflexivity. Qed.

Lemma nth_map_seq {A : Type} (f : nat -> A) (n i : nat) (d : A) :
  (i < n)%nat -> nth i (map f (seq 0 n)) d = f i.
Proof.
  intros Hi.
  rewrite (nth_indep _ d (f 0%nat)) by (rewrite length_map, length_seq; exact Hi).
  rewrite (map_nth f (seq 0 n) 0%nat i), seq_nth by exact Hi.
  reflexivity.
Qed.

Lemma map_seq_const {A : Type} (f : nat -> A) (c : A) (lo n : nat) :
  (forall i, (lo <= i < lo + n)%nat -> f i = c) ->
  map f (seq lo n) = repeat c n.
Proof.
  revert lo. induction n as [| n IH]; intros lo H; simpl.
  - reflexivity.
  - rewrite (H lo) by lia. f_equal. apply IH. intros i Hi. apply H. lia.
Qed.

(** The 32-bit accumulator holds the unbounded sum reduced modulo [2^32]. *)
Lemma wrapped_fold (f : nat -> Z) (l : list nat) (s : Z) :
  fold_left (fun sum i => wrap32 (sum + f i)) l (wrap32 s) =
  wrap32 (fold_left (fun sum i => (sum + f i)%Z) l s).
Proof.
  revert s. induction l as [| a l IH]; intros s; cbn [fold_left].
  - reflexivity.
  - replace (wrap32 (wrap32 s + f a)) with (wrap32 (s + f a)).
    + apply IH.
    + unfold wrap32. symmetry. apply Zplus_mod_idemp_l.
Qed.

Lemma buffer_sum_wraps (raw_buffer : list Z) :
  buffer_sum raw_buffer = wrap32 (true_sum raw_buffer).
Proof.
  unfold buffer_sum, true_sum.
  exact (wrapped_fold (raw_at raw_buffer) _ 0%Z).
Qed.

Lemma buffer_sum_exact (raw_buffer : list Z) :
  (0 <= true_sum raw_buffer < 2 ^ 32)%Z ->
  buffer_sum raw_buffer = true_sum raw_buffer.
Proof.
  intros H. rewrite buffer_sum_wraps. unfold wrap32.
  apply Z.mod_small. exact H.
Qed.

Lemma fold_add_shift (f g : nat -> Z) (c : Z) (l : list nat) (s : Z) :
  (forall i, In i l -> g i = (f i + c)%Z) ->
  fold_left (fun sum i => (sum + g i)%Z) l s =
  (fold_left (fun sum i => (sum + f i)%Z) l s + c * Z.of_nat (length l))%Z.
Proof.
  revert s. induction l as [| a l IH]; intros s H.
  - simpl. lia.
  - cbn [fold_left length]. rewrite IH by (intros i Hi; apply H; right; exact Hi).
    rewrite (H a) by (left; reflexivity).
    assert (E : forall t u : Z,
               fold_left (fun sum i => (sum + f i)%Z) l (t + u)%Z =
               (fold_left (fun sum i => (sum + f i)%Z) l t + u)%Z).
    { clear. induction l as [| b l IHl]; intros t u; simpl.
      - reflexivity.
      - replace (t + u + f b)%Z with ((t + f b) + u)%Z by lia. apply IHl. }
    replace (s + (f a + c))%Z with ((s + f a) + c)%Z by lia.
    rewrite E. lia.
Qed.

Lemma raw_at_constant (c : Z) (i : nat) :
  (i < 256)%nat -> raw_at (constant_buffer c) i = c.
Proof.
  intros Hi. unfold raw_at, constant_buffer.
  rewrite (nth_indep _ 0%Z c) by (rewrite repeat_length; exact Hi).
  apply nth_repeat.
Qed.

Lemma raw_at_add_offset (c : Z) (raw_buffer : list Z) (i : nat) :
  (i < length raw_buffer)%nat ->
  raw_at (add_offset c raw_buffer) i = (raw_at raw_buffer i + c)%Z.
Proof.
  intros Hi. unfold raw_at, add_offset.
  rewrite (nth_indep _ 0%Z (0 + c)%Z) by (rewrite length_map; exact Hi).
  exact (map_nth (fun x => (x + c)%Z) raw_buffer 0%Z i).
Qed.

Lemma true_sum_constant (c : Z) : true_sum (constant_buffer c) = (256 * c)%Z.
Proof.
  unfold true_sum.
  rewrite (fold_add_shift (fun _ => 0%Z) (raw_at (constant_buffer c)) c).
  - rewrite length_seq, num_samples_nat.
    assert (E : forall l : list nat,
               fold_left (fun sum (_ : nat) => (sum + 0)%Z) l 0%Z = 0%Z).
    { induction l as [| a l IH]; simpl; [reflexivity | exact IH]. }
    rewrite E. lia.
  - intros i Hi. apply in_seq in Hi. rewrite num_samples_nat in Hi.
    rewrite raw_at_constant by lia. lia.
Qed.

Lemma true_sum_add_offset (c : Z) (raw_buffer : list Z) :
  length raw_buffer = Z.to_nat NUM_SAMPLES ->
  true_sum (add_offset c raw_buffer) = (true_sum raw_buffer + 256 * c)%Z.
Proof.
  intros Hlen. unfold true_sum.
  rewrite (fold_add_shift (raw_at raw_buffer) (raw_at (add_offset c raw_buffer)) c).
  - rewrite length_seq, num_samples_nat. lia.
  - intros i Hi. apply in_seq in Hi.
    apply raw_at_add_offset. lia.
Qed.

(** Without wrap-around, a constant added to every sample moves the DC
    offset by the same constant and leaves every centred sample as it was. *)
Lemma dc_offset_add_offset (c : Z) (raw_buffer : list Z) :
  length raw_buffer = Z.to_nat NUM_SAMPLES ->
  (0 <= true_sum raw_buffer < 2 ^ 32)%Z ->
  (0 <= true_sum (add_offset c raw_buffer) < 2 ^ 32)%Z ->
  dynamic_dc_offset (add_offset c raw_buffer) =
  dynamic_dc_offset raw_buffer + IZR c.
Proof.
  intros Hlen H1 H2. unfold dynamic_dc_offset.
  rewrite (buffer_sum_exact _ H1), (buffer_sum_exact _ H2).
  rewrite true_sum_add_offset by exact Hlen.
  rewrite plus_IZR, mult_IZR.
  generalize (IZR (true_sum raw_buffer)) (IZR c). intros s k.
  unfold NUM_SAMPLES. field.
Qed.

Lemma centered_sample_add_offset (c : Z) (raw_buffer : list Z) (i : nat) :
  length raw_buffer = Z.to_nat NUM_SAMPLES ->
  (0 <= true_sum raw_buffer < 2 ^ 32)%Z ->
  (0 <= true_sum (add_offset c raw_buffer) < 2 ^ 32)%Z ->
  (i < 256)%nat ->
  centered_sample (add_offset c raw_buffer) i = centered_sample raw_buffer i.
Proof.
  intros Hlen H1 H2 Hi. unfold centered_sample.
  rewrite dc_offset_add_offset by assumption.
  assert (Hi' : (i < length raw_buffer)%nat).
  { rewrite Hlen. exact Hi. }
  rewrite (raw_at_add_offset c raw_buffer i Hi').
  rewrite plus_IZR. ring.
Qed.

Lemma windowed_input_add_offset (c : Z) (raw_buffer : list Z) :
  length raw_buffer = Z.to_nat NUM_SAMPLES ->
  (0 <= true_sum raw_buffer < 2 ^ 32)%Z ->
  (0 <= true_sum (add_offset c raw_buffer) < 2 ^ 32)%Z ->
  windowed_input (add_offset c raw_buffer) = windowed_input raw_buffer.
Proof.
  intros Hlen H1 H2. unfold windowed_input. apply map_ext_in.
  intros i Hi. apply in_seq in Hi. rewrite num_samples_nat in Hi.
  rewrite centered_sample_add_offset by (assumption || lia).
  reflexivity.
Qed.

Lemma centered_sample_constant (c : Z) (i : nat) :
  (0 <= c < 2 ^ 24)%Z -> (i < 256)%nat ->
  centered_sample (constant_buffer c) i = 0.
Proof.
  intros Hc Hi. unfold centered_sample, dynamic_dc_offset.
  rewrite buffer_sum_exact by (rewrite true_sum_constant; lia).
  rewrite true_sum_constant, raw_at_constant by exact Hi.
  rewrite mult_IZR. unfold NUM_SAMPLES.
  generalize (IZR c). intros k. field.
Qed.

Lemma centered_signal_constant (c : Z) :
  (0 <= c < 2 ^ 24)%Z ->
  centered_signal (constant_buffer c) = repeat 0 256.
Proof.
  intros Hc. unfold centered_signal. rewrite num_samples_nat.
  apply map_seq_const. intros i Hi.
  apply centered_sample_constant; [exact Hc | lia].
Qed.

Lemma windowed_input_constant (c : Z) :
  (0 <= c < 2 ^ 24)%Z ->
  windowed_input (constant_buffer c) = repeat 0 256.
Proof.
  intros Hc. unfold windowed_input. rewrite num_samples_nat.
  apply map_seq_const. intros i Hi.
  rewrite centered_sample_constant by (exact Hc || lia). ring.
Qed.

(** The window zeroes the last 30 inputs of the transform. *)
Lemma windowed_input_tail (raw_buffer : list Z) :
  skipn 226 (windowed_input raw_buffer) = repeat 0 30.
Proof.
  unfold windowed_input. rewrite num_samples_nat.
  change 256%nat with (226 + 30)%nat.
  rewrite seq_app, map_app, skipn_app.
  rewrite skipn_all2 by (rewrite length_map, length_seq; lia).
  rewrite length_map, length_seq, Nat.sub_diag. cbn [skipn app Nat.add].
  apply map_seq_const. intros i Hi.
  rewrite hann_tail_zero by lia. ring.
Qed.

Lemma valid_bufferb_spec (raw_buffer : list Z) :
  valid_bufferb raw_buffer = true -> valid_buffer raw_buffer.
Proof.
  unfold valid_bufferb, valid_buffer. intros H.
  apply andb_prop in H as [Hlen Hall]. split.
  - apply Nat.eqb_eq, Hlen.
  - apply Forall_forall. intros x Hx.
    rewrite forallb_forall in Hall. specialize (Hall x Hx).
    apply andb_prop in Hall as [H0 H1]. unfold is_uint32. lia.
Qed.

Lemma raw_at_nonneg (raw_buffer : list Z) (i : nat) :
  Forall is_uint32 raw_buffer -> (0 <= raw_at raw_buffer i)%Z.
Proof.
  intros H. unfold raw_at.
  destruct (Nat.lt_ge_cases i (length raw_buffer)) as [Hlt | Hge].
  - rewrite Forall_forall in H. apply (H (nth i raw_buffer 0%Z)), nth_In, Hlt.
  - rewrite nth_overflow by exact Hge. lia.
Qed.

Lemma fold_add_nonneg (f : nat -> Z) (l : list nat) (s : Z) :
  (forall i, 0 <= f i)%Z -> (0 <= s)%Z ->
  (0 <= fold_left (fun sum i => (sum + f i)%Z) l s)%Z.
Proof.
  intros Hf. revert s. induction l as [| a l IH]; intros s Hs; cbn [fold_left].
  - exact Hs.
  - apply IH. specialize (Hf a). lia.
Qed.

Lemma true_sum_nonneg (raw_buffer : list Z) :
  Forall is_uint32 raw_buffer -> (0 <= true_sum raw_buffer)%Z.
Proof.
  intros H. unfold true_sum. apply fold_add_nonneg; [| lia].
  intros i. apply raw_at_nonneg, H.
Qed.

(** With 256 samples of [c >= 2^24] the accumulator has wrapped and the
    whole multiples of [2^24] stay in every centred sample. *)
Lemma centered_sample_overflow (i : nat) :
  (i < 256)%nat -> centered_sample (constant_buffer (2 ^ 24)) i = 16777216.
Proof.
  intros Hi. unfold centered_sample, dynamic_dc_offset.
  rewrite buffer_sum_wraps, true_sum_constant, raw_at_constant by exact Hi.
  replace (wrap32 (256 * 2 ^ 24)) with 0%Z by reflexivity.
  change (2 ^ 24)%Z with 16777216%Z. unfold NUM_SAMPLES. lra.
Qed.

(** *** Buffers of converter codes *)

Lemma fold_add_start (f : nat -> Z) (l : list nat) (s : Z) :
  fold_left (fun sum i => (sum + f i)%Z) l s =
  (s + fold_left (fun sum i => (sum + f i)%Z) l 0%Z)%Z.
Proof.
  revert s. induction l as [| a l IH]; intros s; cbn [fold_left].
  - lia.
  - rewrite (IH (s + f a)%Z), (IH (0 + f a)%Z). lia.
Qed.

Lemma fold_add_range (f : nat -> Z) (lo hi : Z) (l : list nat) :
  (forall i, In i l -> lo <= f i <= hi)%Z ->
  (lo * Z.of_nat (length l) <= fold_left (fun sum i => (sum + f i)%Z) l 0
   <= hi * Z.of_nat (length l))%Z.
Proof.
  induction l as [| a l IH]; intros H; cbn [fold_left length].
  - lia.
  - rewrite fold_add_start.
    assert (lo <= f a <= hi)%Z by (apply H; left; reflexivity).
    assert (forall i, In i l -> lo <= f i <= hi)%Z
      by (intros i Hi; apply H; right; exact Hi).
    specialize (IH H1). lia.
Qed.

Lemma raw_at_adc (raw_buffer : list Z) (i : nat) :
  adc_buffer raw_buffer -> (i < 256)%nat ->
  (0 <= raw_at raw_buffer i <= 4095)%Z.
Proof.
  intros [Hlen Hall] Hi. unfold raw_at.
  rewrite Forall_forall in Hall.
  assert (Hin : In (nth i raw_buffer 0%Z) raw_buffer).
  { apply nth_In. rewrite Hlen. exact Hi. }
  specialize (Hall _ Hin). unfold ADC_RESOLUTION in Hall. lia.
Qed.

Lemma true_sum_adc (raw_buffer : list Z) :
  adc_buffer raw_buffer -> (0 <= true_sum raw_buffer <= 4095 * 256)%Z.
Proof.
  intros H. unfold true_sum.
  pose proof (fold_add_range (raw_at raw_buffer) 0 4095
                (seq 0 (Z.to_nat NUM_SAMPLES))) as Hr.
  rewrite length_seq in Hr.
  replace (Z.of_nat (Z.to_nat NUM_SAMPLES)) with 256%Z in Hr by reflexivity.
  apply Hr. intros i Hi. apply in_seq in Hi.
  apply raw_at_adc; [exact H | exact (proj2 Hi)].
Qed.

Lemma adc_bufferb_spec (raw_buffer : list Z) :
  adc_bufferb raw_buffer = true -> adc_buffer raw_buffer.
Proof.
  unfold adc_bufferb, adc_buffer. intros H.
  apply andb_prop in H as [Hlen Hall]. split.
  - apply Nat.eqb_eq, Hlen.
  - apply Forall_forall. intros x Hx.
    rewrite forallb_forall in Hall. specialize (Hall x Hx).
    apply andb_prop in Hall as [H0 H1]. lia.
Qed.

Lemma adc_buffer_valid (raw_buffer : list Z) :
  adc_buffer raw_buffer -> valid_buffer raw_buffer.
Proof.
  intros [Hlen Hall]. split; [exact Hlen |].
  apply Forall_forall. intros x Hx.
  rewrite Forall_forall in Hall. specialize (Hall x Hx).
  unfold ADC_RESOLUTION in Hall. unfold is_uint32. lia.
Qed.

(** ** The accumulation loop *)

Lemma energy_bins : (Z.to_nat (NUM_SAMPLES / 2) - 1 = 127)%nat.
Proof. reflexivity. Qed.

(** The running total of the loop is the start value plus the sum of the
    terms. *)
Lemma fold_sum_bins (f g : nat -> R) (first count : nat) (acc : R) :
  (forall i, (first <= i < first + count)%nat -> g i = f i) ->
  fold_left (fun total i => total + g i) (seq first count) acc =
  acc + sum_bins f first count.
Proof.
  revert first acc. induction count as [| k IH]; intros first acc H.
  - simpl. ring.
  - cbn [seq fold_left sum_bins].
    rewrite IH by (intros i Hi; apply H; lia).
    rewrite (H first) by lia. ring.
Qed.

Lemma sum_bins_ext (f g : nat -> R) (first count : nat) :
  (forall i, (first <= i < first + count)%nat -> f i = g i) ->
  sum_bins f first count = sum_bins g first count.
Proof.
  revert first. induction count as [| k IH]; intros first H.
  - reflexivity.
  - cbn [sum_bins]. rewrite (H first) by lia.
    rewrite (IH (S first)) by (intros i Hi; apply H; lia). reflexivity.
Qed.

Lemma sum_bins_app (f : nat -> R) (first a b : nat) :
  sum_bins f first (a + b) = sum_bins f first a + sum_bins f (first + a) b.
Proof.
  revert first. induction a as [| a IH]; intros first.
  - cbn [sum_bins Nat.add]. rewrite Nat.add_0_r. ring.
  - cbn [sum_bins Nat.add]. rewrite IH.
    replace (S first + a)%nat with (first + S a)%nat by lia. ring.
Qed.

Lemma sum_bins_zero (f : nat -> R) (first count : nat) :
  (forall i, (first <= i < first + count)%nat -> f i = 0) ->
  sum_bins f first count = 0.
Proof.
  revert first. induction count as [| k IH]; intros first H.
  - reflexivity.
  - cbn [sum_bins]. rewrite (H first) by lia.
    rewrite IH by (intros i Hi; apply H; lia). ring.
Qed.

Lemma sum_bins_nonneg (f : nat -> R) (first count : nat) :
  (forall i, 0 <= f i) -> 0 <= sum_bins f first count.
Proof.
  intros H. revert first. induction count as [| k IH]; intros first.
  - simpl. lra.
  - cbn [sum_bins]. specialize (H first). specialize (IH (S first)). lra.
Qed.

(** A sum of non-negative terms is at least each of its terms. *)
Lemma sum_bins_ge_term (f : nat -> R) (first count i : nat) :
  (forall j, 0 <= f j) -> (first <= i < first + count)%nat ->
  f i <= sum_bins f first count.
Proof.
  intros H. revert first. induction count as [| k IH]; intros first Hi.
  - lia.
  - cbn [sum_bins]. destruct (Nat.eq_dec i first) as [-> | Hne].
    + pose proof (sum_bins_nonneg f (S first) k H). lra.
    + specialize (IH (S first)). specialize (H first).
      assert (f i <= sum_bins f (S first) k) by (apply IH; lia). lra.
Qed.

Lemma total_energy_sum (fft_output : list R) :
  total_energy fft_output = sum_bins (weighted_mag_sq fft_output) 1 127.
Proof.
  unfold total_energy. rewrite energy_bins.
  rewrite (fold_sum_bins (weighted_mag_sq fft_output)) by reflexivity.
  ring.
Qed.

Lemma weighted_mag_sq_power (fft_output : list R) (i : nat) :
  weighted_mag_sq fft_output i =
  bin_power fft_output i *
  (lut A_WEIGHTING_LUT_SQUARED i * lut MIC_CORRECTION_LUT_SQUARED i).
Proof. unfold weighted_mag_sq, bin_power. cbv zeta. ring. Qed.

Lemma weighted_mag_sq_nonneg (fft_output : list R) (i : nat) :
  0 <= weighted_mag_sq fft_output i.
Proof.
  rewrite weighted_mag_sq_power. unfold bin_power.
  pose proof (a_weighting_nonneg i). pose proof (mic_correction_nonneg i).
  pose proof (pow2_ge_0 (nth (2 * i) fft_output 0)).
  pose proof (pow2_ge_0 (nth (2 * i + 1) fft_output 0)).
  apply Rmult_le_pos; [lra | apply Rmult_le_pos; assumption].
Qed.

Lemma total_energy_nonneg (fft_output : list R) : 0 <= total_energy fft_output.
Proof.
  rewrite total_energy_sum. apply sum_bins_nonneg, weighted_mag_sq_nonneg.
Qed.

Lemma total_energy_ge_bin (fft_output : list R) (i : nat) :
  (1 <= i <= 127)%nat -> weighted_mag_sq fft_output i <= total_energy fft_output.
Proof.
  intros Hi. rewrite total_energy_sum.
  apply sum_bins_ge_term; [apply weighted_mag_sq_nonneg | lia].
Qed.

Lemma weighted_mag_sq_upper (fft_output : list R) (i : nat) :
  (64 <= i)%nat -> weighted_mag_sq fft_output i = 0.
Proof.
  intros Hi. rewrite weighted_mag_sq_power, a_weighting_upper_zero by exact Hi.
  ring.
Qed.

Lemma total_energy_lower_half (fft_output : list R) :
  total_energy fft_output = sum_bins (weighted_mag_sq fft_output) 1 63.
Proof.
  rewrite total_energy_sum. change 127%nat with (63 + 64)%nat.
  rewrite sum_bins_app.
  rewrite (sum_bins_zero _ (1 + 63) 64)
    by (intros i Hi; apply weighted_mag_sq_upper; lia).
  ring.
Qed.

Lemma total_energy_zero_spectrum (fft_output : list R) :
  (forall j, nth j fft_output 0 = 0) -> total_energy fft_output = 0.
Proof.
  intros H. rewrite total_energy_sum. apply sum_bins_zero. intros i _.
  unfold weighted_mag_sq. cbv zeta. rewrite !H. ring.
Qed.

(** ** The energy-to-decibel conversion *)

Lemma sensitivity_pos : 0 < sensitivity_V_Pa.
Proof. unfold sensitivity_V_Pa, powf, Rpower. apply exp_pos. Qed.

Lemma ln10_pos : 0 < ln 10.
Proof. rewrite <- ln_1. apply ln_increasing; lra. Qed.

Lemma sensitivity_le_1 : sensitivity_V_Pa <= 1.
Proof.
  unfold sensitivity_V_Pa, powf, Rpower. rewrite <- exp_0.
  left. apply exp_increasing. pose proof ln10_pos. nra.
Qed.

(** The argument handed to [log10f], as a positive multiple of the root of
    the mean square. *)
Lemma log_argument_factor (energy : R) :
  pressure_Pa energy / 20e-6 =
  sqrt (mean_sq_adc energy) *
  (ADC_REF_VOLTAGE / IZR ADC_RESOLUTION / sensitivity_V_Pa / 20e-6).
Proof.
  unfold pressure_Pa, rms_voltage, rms_adc, sqrtf, ADC_REF_VOLTAGE, ADC_RESOLUTION.
  pose proof sensitivity_pos. field. lra.
Qed.

Lemma conversion_gain_pos :
  0 < ADC_REF_VOLTAGE / IZR ADC_RESOLUTION / sensitivity_V_Pa / 20e-6.
Proof.
  pose proof sensitivity_pos as Hs.
  unfold ADC_REF_VOLTAGE, ADC_RESOLUTION.
  apply Rdiv_lt_0_compat; [| lra].
  apply Rdiv_lt_0_compat; [| exact Hs].
  lra.
Qed.

Lemma mean_sq_adc_pos (energy : R) : 0 < energy -> 0 < mean_sq_adc energy.
Proof.
  intros H. unfold mean_sq_adc, NUM_SAMPLES. simpl (256 * 256)%Z.
  apply Rdiv_lt_0_compat; lra.
Qed.

Lemma log_argument_pos (energy : R) :
  0 < energy -> 0 < pressure_Pa energy / 20e-6.
Proof.
  intros H. rewrite log_argument_factor.
  apply Rmult_lt_0_compat.
  - apply sqrt_lt_R0, mean_sq_adc_pos, H.
  - apply conversion_gain_pos.
Qed.

Lemma energy_conversion_silence (energy : R) :
  energy <= 0 -> energy_conversion energy = Silence.
Proof.
  intros H. unfold energy_conversion.
  destruct (Rle_dec energy 0) as [_ | Hn]; [reflexivity | contradiction].
Qed.

Lemma energy_conversion_logarithm (energy : R) :
  0 < energy ->
  energy_conversion energy = Logarithm (pressure_Pa energy / 20e-6).
Proof.
  intros H. unfold energy_conversion.
  destruct (Rle_dec energy 0) as [Hle | _]; [lra | reflexivity].
Qed.

Lemma energy_to_dba_silence (energy : R) :
  energy <= 0 -> energy_to_dba energy = 0.
Proof.
  intros H. unfold energy_to_dba.
  rewrite energy_conversion_silence by exact H. reflexivity.
Qed.

Lemma energy_to_dba_positive_energy (energy : R) :
  0 < energy ->
  energy_to_dba energy =
  20 * log10f (pressure_Pa energy / 20e-6) + CALIBRATION_OFFSET_DB.
Proof.
  intros H. unfold energy_to_dba.
  rewrite energy_conversion_logarithm by exact H. reflexivity.
Qed.

Lemma log_argument_increasing (e1 e2 : R) :
  0 < e1 -> e1 < e2 ->
  pressure_Pa e1 / 20e-6 < pressure_Pa e2 / 20e-6.
Proof.
  intros H1 H12. rewrite !log_argument_factor.
  apply Rmult_lt_compat_r; [apply conversion_gain_pos |].
  apply sqrt_lt_1_alt. split.
  - left. apply mean_sq_adc_pos, H1.
  - unfold mean_sq_adc, NUM_SAMPLES. simpl (256 * 256)%Z.
    apply Rmult_lt_compat_r; lra.
Qed.

Lemma log10f_increasing (x y : R) : 0 < x -> x < y -> log10f x < log10f y.
Proof.
  intros Hx Hxy. unfold log10f.
  apply Rmult_lt_compat_r.
  - apply Rinv_0_lt_compat, ln10_pos.
  - apply ln_increasing; assumption.
Qed.

Lemma energy_to_dba_increasing (e1 e2 : R) :
  0 < e1 -> e1 < e2 -> energy_to_dba e1 < energy_to_dba e2.
Proof.
  intros H1 H12.
  rewrite !energy_to_dba_positive_energy by lra.
  pose proof (log10f_increasing _ _ (log_argument_pos e1 H1)
                (log_argument_increasing e1 e2 H1 H12)).
  lra.
Qed.

(** From an energy of 204800 on, the level is positive: the root mean square
    is at least 2.5 ADC steps, the pressure at least 100 times the reference
    pressure, its logarithm at least 2, and 20 * 2 - 30 = 10. *)
Lemma energy_to_dba_loud (energy : R) : 204800 <= energy -> 0 < energy_to_dba energy.
Proof.
  intros H.
  rewrite energy_to_dba_positive_energy by lra.
  assert (Harg : 100 <= pressure_Pa energy / 20e-6).
  { rewrite log_argument_factor.
    assert (Hr : 2.5 <= sqrt (mean_sq_adc energy)).
    { replace 2.5 with (sqrt (2.5 * 2.5)) by (apply sqrt_square; lra).
      apply sqrt_le_1_alt. unfold mean_sq_adc, NUM_SAMPLES. simpl (256 * 256)%Z.
      lra. }
    assert (Hg : 40 <= ADC_REF_VOLTAGE / IZR ADC_RESOLUTION / sensitivity_V_Pa / 20e-6).
    { pose proof sensitivity_pos as Hs. pose proof sensitivity_le_1 as Hs1.
      unfold ADC_REF_VOLTAGE, ADC_RESOLUTION.
      replace (3.3 / 4096 / sensitivity_V_Pa / 20e-6)
        with ((3.3 / 4096 / 20e-6) * / sensitivity_V_Pa) by (field; lra).
      assert (1 <= / sensitivity_V_Pa).
      { rewrite <- Rinv_1 at 1. apply Rinv_le_contravar; lra. }
      nra. }
    nra. }
  assert (Hlog : 2 <= log10f (pressure_Pa energy / 20e-6)).
  { unfold log10f. pose proof ln10_pos as Hl.
    assert (Hln : ln 100 <= ln (pressure_Pa energy / 20e-6)).
    { destruct Harg as [Hlt | Heq].
      - left. apply ln_increasing; lra.
      - rewrite <- Heq. lra. }
    replace 100 with (10 * 10) in Hln by lra.
    rewrite ln_mult in Hln by lra.
    apply Rmult_le_reg_r with (ln 10); [exact Hl |].
    replace (ln (pressure_Pa energy / 20e-6) / ln 10 * ln 10)
      with (ln (pressure_Pa energy / 20e-6)) by (field; lra).
    lra. }
  unfold CALIBRATION_OFFSET_DB. lra.
Qed.

(** ** The smoothing filter *)

Lemma ema_iterate_succ (level s0 : R) (n : nat) :
  ema_iterate level s0 (S n) = ema_update level (ema_iterate level s0 n).
Proof. reflexivity. Qed.

(** One update shrinks the distance to the level by the factor 1 - alpha. *)
Lemma ema_update_error (level smoothed : R) :
  level - ema_update level smoothed = (1 - SMOOTHING_FACTOR) * (level - smoothed).
Proof. unfold ema_update. ring. Qed.

Lemma ema_iterate_error (level s0 : R) (n : nat) :
  level - ema_iterate level s0 n = (1 - SMOOTHING_FACTOR) ^ n * (level - s0).
Proof.
  induction n as [| n IH].
  - simpl. ring.
  - rewrite ema_iterate_succ, ema_update_error, IH. simpl. ring.
Qed.

Lemma smoothing_decay_range : 0 < 1 - SMOOTHING_FACTOR < 1.
Proof. unfold SMOOTHING_FACTOR. lra. Qed.

Lemma ema_iterate_below (level s0 : R) (n : nat) :
  s0 <= level ->
  ema_iterate level s0 n <= ema_iterate level s0 (S n) <= level.
Proof.
  intros H.
  pose proof (ema_iterate_error level s0 n) as En.
  pose proof (ema_update_error level (ema_iterate level s0 n)) as Es.
  rewrite <- ema_iterate_succ in Es.
  assert (Hp : 0 <= (1 - SMOOTHING_FACTOR) ^ n)
    by (apply pow_le; pose proof smoothing_decay_range; lra).
  assert (0 <= level - ema_iterate level s0 n) by (rewrite En; nra).
  unfold SMOOTHING_FACTOR in *. lra.
Qed.

Lemma ema_iterate_above (level s0 : R) (n : nat) :
  level <= s0 ->
  level <= ema_iterate level s0 (S n) <= ema_iterate level s0 n.
Proof.
  intros H.
  pose proof (ema_iterate_error level s0 n) as En.
  pose proof (ema_update_error level (ema_iterate level s0 n)) as Es.
  rewrite <- ema_iterate_succ in Es.
  assert (Hp : 0 <= (1 - SMOOTHING_FACTOR) ^ n)
    by (apply pow_le; pose proof smoothing_decay_range; lra).
  assert (level - ema_iterate level s0 n <= 0) by (rewrite En; nra).
  unfold SMOOTHING_FACTOR in *. lra.
Qed.

Lemma ema_iterate_limit (level s0 eps : R) :
  0 < eps ->
  exists N : nat, forall n : nat, (N <= n)%nat ->
    Rabs (level - ema_iterate level s0 n) < eps.
Proof.
  intros Heps.
  pose proof smoothing_decay_range as Hd.
  assert (Hq : Rabs (1 - SMOOTHING_FACTOR) < 1) by (rewrite Rabs_pos_eq; lra).
  pose proof (Rabs_pos (level - s0)) as Hpos.
  destruct (pow_lt_1_zero _ Hq (eps / (Rabs (level - s0) + 1))) as [N HN].
  { apply Rdiv_lt_0_compat; lra. }
  exists N. intros n Hn.
  rewrite ema_iterate_error, Rabs_mult.
  specialize (HN n Hn).
  pose proof (Rabs_pos ((1 - SMOOTHING_FACTOR) ^ n)) as Hp.
  apply Rle_lt_trans
    with (Rabs ((1 - SMOOTHING_FACTOR) ^ n) * (Rabs (level - s0) + 1)).
  - nra.
  - apply Rmult_lt_reg_r with (/ (Rabs (level - s0) + 1)).
    + apply Rinv_0_lt_compat. lra.
    + replace (Rabs ((1 - SMOOTHING_FACTOR) ^ n) * (Rabs (level - s0) + 1) *
               / (Rabs (level - s0) + 1))
        with (Rabs ((1 - SMOOTHING_FACTOR) ^ n)) by (field; lra).
      exact HN.
Qed.

(** ** [process], field by field *)

Section ProcessFacts.

Variable fft : list R -> list R.

Lemma process_latest (m : SPL_Meter) (raw_buffer : list Z) :
  m_latest_dba_spl (process fft m raw_buffer) =
  energy_to_dba (buffer_energy fft raw_buffer).
Proof. reflexivity. Qed.

Lemma process_smoothed (m : SPL_Meter) (raw_buffer : list Z) :
  m_smoothed_dba_spl (process fft m raw_buffer) =
  ema_update (energy_to_dba (buffer_energy fft raw_buffer))
             (m_smoothed_dba_spl m).
Proof. reflexivity. Qed.

Lemma process_fft_input (m : SPL_Meter) (raw_buffer : list Z) :
  m_fft_input_buffer (process fft m raw_buffer) = windowed_input raw_buffer.
Proof. reflexivity. Qed.

Lemma process_repeat_smoothed (n : nat) (m : SPL_Meter) (raw_buffer : list Z) :
  m_smoothed_dba_spl (process_repeat fft n m raw_buffer) =
  ema_iterate (energy_to_dba (buffer_energy fft raw_buffer))
              (m_smoothed_dba_spl m) n.
Proof.
  induction n as [| n IH].
  - reflexivity.
  - cbn [process_repeat]. rewrite process_smoothed, IH. reflexivity.
Qed.

(** A constant buffer whose 32-bit sum does not wrap carries no energy,
    whenever the transform maps the zero signal to the zero spectrum. *)
Lemma buffer_energy_constant (c : Z) :
  (forall j, nth j (fft (repeat 0 256)) 0 = 0) ->
  (0 <= c < 2 ^ 24)%Z ->
  buffer_energy fft (constant_buffer c) = 0.
Proof.
  intros Hz Hc. unfold buffer_energy.
  rewrite windowed_input_constant by exact Hc.
  apply total_energy_zero_spectrum, Hz.
Qed.

End ProcessFacts.

(** ** The reference transform *)

Lemma Rsum_ext (f g : nat -> R) (n : nat) :
  (forall i, (i < n)%nat -> f i = g i) -> Rsum f n = Rsum g n.
Proof.
  induction n as [| n IH]; intros H.
  - reflexivity.
  - cbn [Rsum]. rewrite IH by (intros i Hi; apply H; lia).
    rewrite (H n) by lia. reflexivity.
Qed.

Lemma Rsum_zero (f : nat -> R) (n : nat) :
  (forall i, (i < n)%nat -> f i = 0) -> Rsum f n = 0.
Proof.
  induction n as [| n IH]; intros H.
  - reflexivity.
  - cbn [Rsum]. rewrite IH by (intros i Hi; apply H; lia).
    rewrite (H n) by lia. ring.
Qed.


Lemma nth_zero_signal (n i : nat) : nth i (repeat 0 n) 0 = 0.
Proof.
  destruct (Nat.lt_ge_cases i n) as [Hlt | Hge].
  - apply nth_repeat.
  - apply nth_overflow. rewrite repeat_length. exact Hge.
Qed.

Lemma dft_re_zero (k : nat) : dft_re (repeat 0 256) k = 0.
Proof.
  unfold dft_re. apply Rsum_zero. intros i _.
  rewrite nth_zero_signal. ring.
Qed.

Lemma dft_im_zero (k : nat) : dft_im (repeat 0 256) k = 0.
Proof.
  unfold dft_im. rewrite Rsum_zero; [ring |]. intros i _.
  rewrite nth_zero_signal. ring.
Qed.

Lemma rfft_slot_zero (j : nat) : rfft_slot (repeat 0 256) j = 0.
Proof.
  unfold rfft_slot. destruct j as [| [| j]].
  - apply dft_re_zero.
  - apply dft_re_zero.
  - destruct (Nat.even (S (S j))); [apply dft_re_zero | apply dft_im_zero].
Qed.

Lemma rfft_reference_nth (x : list R) (j : nat) :
  (j < 256)%nat -> nth j (rfft_reference x) 0 = rfft_slot x j.
Proof. intros Hj. unfold rfft_reference. apply nth_map_seq, Hj. Qed.

Lemma rfft_reference_length (x : list R) : length (rfft_reference x) = 256%nat.
Proof. unfold rfft_reference. rewrite length_map, length_seq. reflexivity. Qed.

(** The reference transform maps the zero signal to the zero spectrum. *)
Lemma rfft_reference_zero (j : nat) :
  nth j (rfft_reference (repeat 0 256)) 0 = 0.
Proof.
  destruct (Nat.lt_ge_cases j 256) as [Hlt | Hge].
  - rewrite rfft_reference_nth by exact Hlt. apply rfft_slot_zero.
  - apply nth_overflow. rewrite rfft_reference_length. exact Hge.
Qed.

(** *** Linearity in the amplitude *)








(** *** Bin 32, exactly *)

Lemma Q2R_neg1 : Q2R (-1) = -1.
Proof. unfold Q2R. simpl. lra. Qed.

Lemma Q2R_inject_Z (z : Z) : Q2R (inject_Z z) = IZR z.
Proof. unfold Q2R, inject_Z. simpl. field. Qed.

Lemma Q2R_Qred (q : Q) : Q2R (Qred q) = Q2R q.
Proof. apply Qeq_eqR, Qred_correct. Qed.

Lemma QS_value_add (y z : QS) : QS_value (QS_add y z) = QS_value y + QS_value z.
Proof.
  unfold QS_value, QS_add. cbn [fst snd].
  rewrite !Q2R_Qred, !Q2R_plus. ring.
Qed.

Lemma QS_value_scale (q : Q) (z : QS) :
  QS_value (QS_scale q z) = Q2R q * QS_value z.
Proof.
  unfold QS_value, QS_scale. cbn [fst snd].
  rewrite !Q2R_mult. ring.
Qed.

Lemma QS_sum_value (f : nat -> QS) (n : nat) :
  QS_value (QS_sum f n) = Rsum (fun i => QS_value (f i)) n.
Proof.
  induction n as [| n IH].
  - unfold QS_value. simpl. rewrite RMicromega.Q2R_0. ring.
  - cbn [QS_sum Rsum]. rewrite QS_value_add, IH. reflexivity.
Qed.

Lemma dft_angle_32 (n : nat) : dft_angle 32 n = INR n * (PI / 4).
Proof.
  unfold dft_angle.
  replace (INR 32) with 32 by (rewrite INR_IZR_INZ; reflexivity).
  field.
Qed.

(** The cosine at the eight multiples of pi/4. *)
Lemma cos_quarter_value (r : nat) :
  (r < 8)%nat -> cos (INR r * (PI / 4)) = QS_value (cos_quarter r).
Proof.
  intros Hr. unfold QS_value.
  assert (Hcases : (r = 0 \/ r = 1 \/ r = 2 \/ r = 3 \/
                    r = 4 \/ r = 5 \/ r = 6 \/ r = 7)%nat) by lia.
  destruct Hcases as [-> | [-> | [-> | [-> | [-> | [-> | [-> | ->]]]]]]];
    cbn [cos_quarter fst snd];
    rewrite ?RMicromega.Q2R_0, ?RMicromega.Q2R_1, ?Q2R_neg1.
  - replace (INR 0 * (PI / 4)) with 0 by (simpl; ring).
    rewrite cos_0. ring.
  - replace (INR 1 * (PI / 4)) with (PI / 4) by (simpl; ring).
    rewrite cos_PI4. unfold Rdiv. ring.
  - replace (INR 2 * (PI / 4)) with (PI / 2) by (simpl; field).
    rewrite cos_PI2. ring.
  - replace (INR 3 * (PI / 4)) with (3 * (PI / 4)) by (simpl; ring).
    rewrite cos_3PI4. unfold Rdiv. ring.
  - replace (INR 4 * (PI / 4)) with PI by (simpl; field).
    rewrite cos_PI. ring.
  - replace (INR 5 * (PI / 4)) with (5 * (PI / 4)) by (simpl; ring).
    rewrite cos_5PI4. unfold Rdiv. ring.
  - replace (INR 6 * (PI / 4)) with (3 * (PI / 2)) by (simpl; field).
    rewrite cos_3PI2. ring.
  - replace (INR 7 * (PI / 4)) with (- (PI / 4) + 2 * INR 1 * PI)
      by (simpl; field).
    rewrite cos_period, cos_neg, cos_PI4. unfold Rdiv. ring.
Qed.

Lemma cos_quarter_turns (n : nat) :
  cos (dft_angle 32 n) = QS_value (cos_quarter (n mod 8)).
Proof.
  rewrite dft_angle_32.
  rewrite (Nat.div_mod_eq n 8) at 1.
  rewrite plus_INR, mult_INR.
  replace (INR 8) with 8 by (rewrite INR_IZR_INZ; reflexivity).
  replace ((8 * INR (n / 8) + INR (n mod 8)) * (PI / 4))
    with (INR (n mod 8) * (PI / 4) + 2 * INR (n / 8) * PI) by field.
  rewrite cos_period. apply cos_quarter_value.
  apply Nat.mod_upper_bound. discriminate.
Qed.

Lemma nth_map_Q2R (x : list Q) (n : nat) :
  nth n (map Q2R x) 0 = Q2R (nth n x 0%Q).
Proof.
  rewrite <- RMicromega.Q2R_0 at 1. exact (map_nth Q2R x 0%Q n).
Qed.

(** On a rational input the real part of bin 32 is the number the rational
    evaluation returns. *)
Lemma bin32_re_exact (x : list Q) :
  dft_re (map Q2R x) 32 = QS_value (bin32_re_Q x).
Proof.
  unfold dft_re, bin32_re_Q. rewrite QS_sum_value.
  apply Rsum_ext. intros n _.
  rewrite nth_map_Q2R, cos_quarter_turns, QS_value_scale. reflexivity.
Qed.

Lemma centered_sample_rational (raw_buffer : list Z) (i : nat) :
  centered_sample raw_buffer i = Q2R (centered_sample_Q raw_buffer i).
Proof.
  unfold centered_sample, centered_sample_Q, dynamic_dc_offset.
  rewrite Q2R_minus, Q2R_div, !Q2R_inject_Z; [reflexivity |].
  unfold NUM_SAMPLES. discriminate.
Qed.

Lemma windowed_input_rational (raw_buffer : list Z) :
  windowed_input raw_buffer = map Q2R (windowed_input_Q raw_buffer).
Proof.
  unfold windowed_input, windowed_input_Q. rewrite map_map.
  apply map_ext. intros i.
  rewrite Q2R_mult, centered_sample_rational. reflexivity.
Qed.

(** The energy of a buffer is at least the weighted square of the real part
    of bin 32. *)
Lemma reference_energy_bin32 (raw_buffer : list Z) :
  lut A_WEIGHTING_LUT_SQUARED 32 * lut MIC_CORRECTION_LUT_SQUARED 32 *
  QS_value (bin32_re_Q (windowed_input_Q raw_buffer)) ^ 2
  <= buffer_energy rfft_reference raw_buffer.
Proof.
  unfold buffer_energy.
  apply Rle_trans
    with (weighted_mag_sq (rfft_reference (windowed_input raw_buffer)) 32).
  - unfold weighted_mag_sq. cbv zeta.
    change (2 * 32)%nat with 64%nat. change (64 + 1)%nat with 65%nat.
    rewrite (rfft_reference_nth _ 64) by lia.
    change (rfft_slot (windowed_input raw_buffer) 64)
      with (dft_re (windowed_input raw_buffer) 32).
    rewrite windowed_input_rational, bin32_re_exact.
    pose proof (a_weighting_nonneg 32) as HA.
    pose proof (mic_correction_nonneg 32) as HM.
    set (im := nth 65 _ 0).
    set (re := QS_value _).
    assert (0 <= im * im) by nra.
    assert (0 <= lut A_WEIGHTING_LUT_SQUARED 32 * lut MIC_CORRECTION_LUT_SQUARED 32)
      by (apply Rmult_le_pos; assumption).
    nra.
  - apply total_energy_ge_bin. lia.
Qed.

Lemma inv_sqrt2_bounds : 0.7 < / sqrt 2 < 0.8.
Proof.
  pose proof Rlt_sqrt2_0 as Hpos.
  pose proof (sqrt_sqrt 2 ltac:(lra)) as Hsq.
  assert (H1 : 1.4 < sqrt 2) by nra.
  assert (H2 : sqrt 2 < 1.42) by nra.
  replace (/ sqrt 2) with (sqrt 2 / 2) by (field_simplify_eq; lra).
  lra.
Qed.

(** ** Three concrete buffers under the reference transform *)

Lemma weights_bin32 :
  lut A_WEIGHTING_LUT_SQUARED 32 = 0.0631 /\
  lut MIC_CORRECTION_LUT_SQUARED 32 = 0.9226.
Proof.
  unfold lut.
  replace (nth 32 A_WEIGHTING_LUT_SQUARED 0%Q) with 0.0631%Q by reflexivity.
  replace (nth 32 MIC_CORRECTION_LUT_SQUARED 0%Q) with 0.9226%Q by reflexivity.
  unfold Q2R. simpl. lra.
Qed.

(** 256 samples of value [2^24]: their 32-bit sum wraps to 0, so nothing is
    subtracted and the window itself is transformed, scaled by [2^24]. *)
Lemma overflow_buffer_energy :
  204800 <= buffer_energy rfft_reference (constant_buffer (2 ^ 24)).
Proof.
  pose proof (reference_energy_bin32 (constant_buffer (2 ^ 24))) as H.
  destruct weights_bin32 as [HA HM]. rewrite HA, HM in H.
  replace (bin32_re_Q (windowed_input_Q (constant_buffer (2 ^ 24))))
    with ((407371776 # 3125)%Q, (625999872 # 3125)%Q) in H
    by (vm_compute; reflexivity).
  unfold QS_value, Q2R in H. cbn [fst snd Qnum Qden] in H.
  pose proof inv_sqrt2_bounds as Hs.
  set (s := / sqrt 2) in *.
  assert (Hv : 130000 <= 407371776 * / 3125 + 625999872 * / 3125 * s) by nra.
  nra.
Qed.

(** A buffer resting at mid-scale with one sample raised by 256 steps. *)
Lemma impulse_buffer_energy :
  0 < buffer_energy rfft_reference (impulse_buffer 2048 256).
Proof.
  pose proof (reference_energy_bin32 (impulse_buffer 2048 256)) as H.
  destruct weights_bin32 as [HA HM]. rewrite HA, HM in H.
  replace (bin32_re_Q (windowed_input_Q (impulse_buffer 2048 256)))
    with ((-0.00777)%Q, (12799403 # 50000)%Q) in H
    by (vm_compute; reflexivity).
  unfold QS_value, Q2R in H. cbn [fst snd Qnum Qden] in H.
  pose proof inv_sqrt2_bounds as Hs.
  set (s := / sqrt 2) in *.
  assert (Hv : 100 <= -777 * / 100000 + 12799403 * / 50000 * s) by nra.
  nra.
Qed.



Lemma repeat_uint32 (c : Z) (n : nat) :
  is_uint32 c -> Forall is_uint32 (repeat c n).
Proof.
  intros Hc. apply Forall_forall. intros x Hx.
  apply repeat_spec in Hx. subst x. exact Hc.
Qed.

Lemma impulse_buffer_valid (a : Z) :
  (0 <= a < 2048)%Z -> valid_buffer (impulse_buffer 2048 a).
Proof.
  intros Ha. split.
  - reflexivity.
  - unfold impulse_buffer. apply Forall_app. split.
    + apply repeat_uint32. unfold is_uint32. lia.
    + constructor.
      * unfold is_uint32. lia.
      * apply repeat_uint32. unfold is_uint32. lia.
Qed.

Lemma constant_buffer_valid (c : Z) :
  (0 <= c < 2 ^ 32)%Z -> valid_buffer (constant_buffer c).
Proof.
  intros Hc. split.
  - unfold constant_buffer. apply repeat_length.
  - apply repeat_uint32. exact Hc.
Qed.

(** ** The properties of the specification *)

(** C1.  The window table as the code has it: 226 listed coefficients and 30
    zero-initialised ones, 256 in all and each within [0,1]; it is not
    symmetric under i -> 255 - i (index 1 holds 0.00015, index 254 holds 0),
    and its maximum 1.0 sits at index 113, not at the midpoint (indices 127
    and 128 hold 0.8744 and 0.8641).  The listed part is symmetric about
    index 113. *)
Theorem hann_window_lut_truncated :
  length HANN_WINDOW_initializers = 226%nat /\
  length HANN_WINDOW_LUT = 256%nat /\
  range_all (fun i => Qle_bool 0 (nth i HANN_WINDOW_LUT 0%Q) &&
                      Qle_bool (nth i HANN_WINDOW_LUT 0%Q) 1) 0 256 = true /\
  lut HANN_WINDOW_LUT 1 = 0.00015 /\
  lut HANN_WINDOW_LUT (255 - 1) = 0 /\
  lut HANN_WINDOW_LUT 113 = 1 /\
  lut HANN_WINDOW_LUT 127 = 0.8744 /\
  lut HANN_WINDOW_LUT 128 = 0.8641 /\
  range_all (fun i => Qeq_bool (nth i HANN_WINDOW_LUT 0%Q)
                               (nth (226 - i) HANN_WINDOW_LUT 0%Q)) 0 227 = true.
Proof.
  assert (Hq : forall (q : Q) (i : nat),
             nth i HANN_WINDOW_LUT 0%Q = q -> lut HANN_WINDOW_LUT i = Q2R q).
  { intros q i <-. reflexivity. }
  split; [reflexivity |]. split; [reflexivity |].
  split; [vm_compute; reflexivity |].
  split; [rewrite (Hq 0.00015%Q) by reflexivity; unfold Q2R; simpl; lra |].
  split; [rewrite (Hq 0%Q) by reflexivity; exact RMicromega.Q2R_0 |].
  split; [rewrite (Hq 1.00000%Q) by reflexivity; unfold Q2R; simpl; lra |].
  split; [rewrite (Hq 0.87440%Q) by reflexivity; unfold Q2R; simpl; lra |].
  split; [rewrite (Hq 0.86410%Q) by reflexivity; unfold Q2R; simpl; lra |].
  vm_compute. reflexivity.
Qed.

(** C2.  For a buffer of 256 samples that all equal the same code [c] of
    the converter, processing yields a DC-removed signal that is all zeros, an
    accumulated energy of 0 and an instantaneous level of exactly 0.  The
    transform is any that maps the zero signal to the zero spectrum. *)
Theorem constant_buffer_silence
        (fft : list R -> list R) (m : SPL_Meter) (c : Z) :
  (forall j, nth j (fft (repeat 0 256)) 0 = 0) ->
  (0 <= c < ADC_RESOLUTION)%Z ->
  centered_signal (constant_buffer c) = repeat 0 256 /\
  buffer_energy fft (constant_buffer c) = 0 /\
  m_latest_dba_spl (process fft m (constant_buffer c)) = 0.
Proof.
  intros Hz Hadc.
  assert (Hc : (0 <= c < 2 ^ 24)%Z) by (unfold ADC_RESOLUTION in Hadc; lia).
  split; [| split].
  - apply centered_signal_constant, Hc.
  - apply buffer_energy_constant; assumption.
  - rewrite process_latest, buffer_energy_constant by assumption.
    apply energy_to_dba_silence. lra.
Qed.

Lemma constant_buffer_silence_witness :
  centered_signal (constant_buffer 2048) = repeat 0 256 /\
  buffer_energy rfft_reference (constant_buffer 2048) = 0 /\
  m_latest_dba_spl
    (process rfft_reference (SPL_Meter_ctor [] []) (constant_buffer 2048)) = 0.
Proof.
  apply (constant_buffer_silence rfft_reference (SPL_Meter_ctor [] []) 2048).
  - exact rfft_reference_zero.
  - unfold ADC_RESOLUTION. lia.
Defined.

(** Beyond the range of the converter the 32-bit sum can wrap: 256 samples
    of value [2^24] sum to [2^32], the accumulator ends at 0, nothing is
    subtracted, and the constant buffer reads a positive level. *)
Lemma constant_buffer_overflow :
  valid_buffer (constant_buffer (2 ^ 24)) /\
  centered_signal (constant_buffer (2 ^ 24)) = repeat 16777216 256 /\
  0 < buffer_energy rfft_reference (constant_buffer (2 ^ 24)) /\
  0 < m_latest_dba_spl
        (process rfft_reference (SPL_Meter_ctor [] []) (constant_buffer (2 ^ 24))).
Proof.
  pose proof overflow_buffer_energy as HE.
  split; [| split; [| split]].
  - apply constant_buffer_valid. lia.
  - unfold centered_signal. rewrite num_samples_nat.
    apply map_seq_const. intros i Hi. apply centered_sample_overflow. lia.
  - lra.
  - rewrite process_latest. apply energy_to_dba_loud, HE.
Qed.

(** C3.  For every buffer the accumulated energy is the sum, over bins 1 to
    127, of (real^2 + imag^2) of the bin times the product of the two
    weighting coefficients of the bin; the level is converted from it. *)
Theorem total_energy_is_weighted_bin_sum
        (fft : list R -> list R) (m : SPL_Meter) (raw_buffer : list Z) :
  buffer_energy fft raw_buffer =
    weighted_bin_sum (m_fft_output_buffer (process fft m raw_buffer)) /\
  m_fft_output_buffer (process fft m raw_buffer) =
    fft (windowed_input raw_buffer) /\
  m_latest_dba_spl (process fft m raw_buffer) =
    energy_to_dba
      (weighted_bin_sum (m_fft_output_buffer (process fft m raw_buffer))).
Proof.
  assert (E : forall out, total_energy out = weighted_bin_sum out).
  { intros out. rewrite total_energy_sum. unfold weighted_bin_sum.
    apply sum_bins_ext. intros i _. apply weighted_mag_sq_power. }
  split; [| split].
  - unfold buffer_energy. rewrite E. reflexivity.
  - reflexivity.
  - rewrite process_latest. unfold buffer_energy. rewrite E. reflexivity.
Qed.

(** C4.  When the accumulated energy is not positive the silence branch
    runs and the level is exactly 0; the branch that calls the logarithm
    runs only for a positive energy, and its argument is strictly
    positive. *)
Theorem nonpositive_energy_silence
        (fft : list R -> list R) (m : SPL_Meter) (raw_buffer : list Z) :
  (buffer_energy fft raw_buffer <= 0 ->
     energy_conversion (buffer_energy fft raw_buffer) = Silence /\
     m_latest_dba_spl (process fft m raw_buffer) = 0) /\
  (forall argument : R,
     energy_conversion (buffer_energy fft raw_buffer) = Logarithm argument ->
     0 < buffer_energy fft raw_buffer /\ 0 < argument).
Proof.
  split.
  - intros H. split.
    + apply energy_conversion_silence, H.
    + rewrite process_latest. apply energy_to_dba_silence, H.
  - intros argument H.
    destruct (Rle_dec (buffer_energy fft raw_buffer) 0) as [Hle | Hgt].
    + rewrite energy_conversion_silence in H by exact Hle. discriminate.
    + apply Rnot_le_lt in Hgt. split; [exact Hgt |].
      rewrite energy_conversion_logarithm in H by exact Hgt.
      injection H as <-. apply log_argument_pos, Hgt.
Qed.

Lemma nonpositive_energy_silence_witness :
  m_latest_dba_spl
    (process rfft_reference (SPL_Meter_ctor [] []) (constant_buffer 2048)) = 0 /\
  0 < pressure_Pa (buffer_energy rfft_reference (impulse_buffer 2048 256)) / 20e-6.
Proof.
  split.
  - apply (proj1 (nonpositive_energy_silence rfft_reference
                    (SPL_Meter_ctor [] []) (constant_buffer 2048))).
    rewrite (buffer_energy_constant rfft_reference 2048 rfft_reference_zero)
      by lia.
    lra.
  - apply (proj2 (nonpositive_energy_silence rfft_reference
                    (SPL_Meter_ctor [] []) (impulse_buffer 2048 256))).
    apply energy_conversion_logarithm, impulse_buffer_energy.
Defined.

(** C5.  One call of [process] leaves [m_smoothed_dba_spl] untouched until
    its last step, which sets it to 0.1 * latest + (1 - 0.1) * previous
    smoothed, with the latest level of the same call; nothing else of the
    previous state reaches the result. *)
Theorem smoothed_level_single_update
        (fft : list R -> list R) (m : SPL_Meter) (raw_buffer : list Z) :
  m_smoothed_dba_spl (fill_fft_input m raw_buffer) = m_smoothed_dba_spl m /\
  m_smoothed_dba_spl (run_fft fft (fill_fft_input m raw_buffer)) =
    m_smoothed_dba_spl m /\
  m_smoothed_dba_spl (store_latest (run_fft fft (fill_fft_input m raw_buffer))) =
    m_smoothed_dba_spl m /\
  m_smoothed_dba_spl (process fft m raw_buffer) =
    0.1 * m_latest_dba_spl (process fft m raw_buffer) +
    (1 - 0.1) * m_smoothed_dba_spl m /\
  m_latest_dba_spl (process fft m raw_buffer) =
    energy_to_dba (buffer_energy fft raw_buffer) /\
  (forall (latest0 : R) (in0 out0 : list R),
     process fft (mkSPL_Meter latest0 (m_smoothed_dba_spl m) in0 out0) raw_buffer =
     process fft m raw_buffer).
Proof.
  split; [reflexivity |]. split; [reflexivity |]. split; [reflexivity |].
  split; [reflexivity |]. split; [reflexivity |].
  intros latest0 in0 out0. reflexivity.
Qed.

(** C6.  Fed the same level [L] again and again, from any start, the
    smoothed value approaches [L]: the error shrinks by the factor 1 - alpha
    at each step, the value moves monotonically towards [L] and never
    crosses it, and the error falls below every positive bound.  Processing
    the same buffer [n] times is such a run.  With alpha = 0.1, from 0
    towards 60 the first step gives 6.0 and the second 11.4.  ([L] may be any
    level, the non-zero ones included.) *)
Theorem smoothing_convergence (L s0 : R) :
  (forall n, Rabs (L - ema_iterate L s0 (S n)) =
             (1 - SMOOTHING_FACTOR) * Rabs (L - ema_iterate L s0 n)) /\
  (s0 <= L -> forall n, ema_iterate L s0 n <= ema_iterate L s0 (S n) <= L) /\
  (L <= s0 -> forall n, L <= ema_iterate L s0 (S n) <= ema_iterate L s0 n) /\
  (forall eps, 0 < eps ->
     exists N : nat, forall n : nat, (N <= n)%nat ->
       Rabs (L - ema_iterate L s0 n) < eps) /\
  (forall (fft : list R -> list R) (m : SPL_Meter) (raw_buffer : list Z) (n : nat),
     energy_to_dba (buffer_energy fft raw_buffer) = L ->
     m_smoothed_dba_spl m = s0 ->
     m_smoothed_dba_spl (process_repeat fft n m raw_buffer) = ema_iterate L s0 n) /\
  SMOOTHING_FACTOR = 0.1 /\
  ema_iterate 60 0 1 = 6.0 /\
  ema_iterate 60 0 2 = 11.4.
Proof.
  split; [| split; [| split; [| split; [| split; [| split; [| split]]]]]].
  - intros n. rewrite ema_iterate_succ.
    replace (L - ema_update L (ema_iterate L s0 n))
      with ((1 - SMOOTHING_FACTOR) * (L - ema_iterate L s0 n))
      by (symmetry; apply ema_update_error).
    rewrite Rabs_mult.
    rewrite (Rabs_pos_eq (1 - SMOOTHING_FACTOR))
      by (pose proof smoothing_decay_range; lra).
    reflexivity.
  - intros H n. apply ema_iterate_below, H.
  - intros H n. apply ema_iterate_above, H.
  - intros eps Heps. apply ema_iterate_limit, Heps.
  - intros fft m raw_buffer n HL Hs.
    rewrite process_repeat_smoothed, HL, Hs. reflexivity.
  - reflexivity.
  - unfold ema_iterate, ema_update, SMOOTHING_FACTOR. simpl. lra.
  - unfold ema_iterate, ema_update, SMOOTHING_FACTOR. simpl. lra.
Qed.

Lemma smoothing_convergence_witness :
  ema_iterate 60 0 0 <= ema_iterate 60 0 1 <= 60 /\
  60 <= ema_iterate 60 100 1 <= ema_iterate 60 100 0.
Proof.
  split.
  - apply (proj1 (proj2 (smoothing_convergence 60 0))). lra.
  - apply (proj1 (proj2 (proj2 (smoothing_convergence 60 100)))). lra.
Defined.

(** C7.  For a buffer of 256 codes of the converter and a constant [c]
    that keeps every sample a code of the converter, the buffer and the
    buffer with [c] added to every sample yield the same instantaneous
    level, whatever the earlier state: the offset removed moves by [c]. *)
Theorem dc_offset_invariance
        (fft : list R -> list R) (m m' : SPL_Meter)
        (raw_buffer : list Z) (c : Z) :
  adc_buffer raw_buffer ->
  adc_buffer (add_offset c raw_buffer) ->
  dynamic_dc_offset (add_offset c raw_buffer) =
    dynamic_dc_offset raw_buffer + IZR c /\
  m_fft_input_buffer (process fft m raw_buffer) =
    m_fft_input_buffer (process fft m' (add_offset c raw_buffer)) /\
  m_latest_dba_spl (process fft m raw_buffer) =
    m_latest_dba_spl (process fft m' (add_offset c raw_buffer)).
Proof.
  intros Ha Ha'.
  pose proof (true_sum_adc _ Ha) as Hs.
  pose proof (true_sum_adc _ Ha') as Hs'.
  destruct Ha as [Hlen _].
  assert (H1 : (0 <= true_sum raw_buffer < 2 ^ 32)%Z) by lia.
  assert (H2 : (0 <= true_sum (add_offset c raw_buffer) < 2 ^ 32)%Z) by lia.
  pose proof (windowed_input_add_offset c raw_buffer Hlen H1 H2) as E.
  split; [| split].
  - apply dc_offset_add_offset; assumption.
  - rewrite !process_fft_input. symmetry. exact E.
  - rewrite !process_latest. unfold buffer_energy. rewrite E. reflexivity.
Qed.

Lemma dc_offset_invariance_witness :
  dynamic_dc_offset (add_offset 100 (impulse_buffer 2048 256)) =
    dynamic_dc_offset (impulse_buffer 2048 256) + IZR 100 /\
  m_fft_input_buffer
    (process rfft_reference (SPL_Meter_ctor [] []) (impulse_buffer 2048 256)) =
  m_fft_input_buffer
    (process rfft_reference (mkSPL_Meter 55 48 [] [])
             (add_offset 100 (impulse_buffer 2048 256))) /\
  m_latest_dba_spl
    (process rfft_reference (SPL_Meter_ctor [] []) (impulse_buffer 2048 256)) =
  m_latest_dba_spl
    (process rfft_reference (mkSPL_Meter 55 48 [] [])
             (add_offset 100 (impulse_buffer 2048 256))).
Proof.
  apply (dc_offset_invariance rfft_reference (SPL_Meter_ctor [] [])
           (mkSPL_Meter 55 48 [] []) (impulse_buffer 2048 256) 100).
  - apply adc_bufferb_spec. vm_compute. reflexivity.
  - apply adc_bufferb_spec. vm_compute. reflexivity.
Defined.

(** Beyond the range of the converter the offset is not always removed:
    adding [2^24] to every sample of the all-zero buffer makes the 32-bit sum
    wrap to 0 again, so the level of the all-zero buffer is 0 and that of
    the shifted buffer is positive. *)
Lemma dc_offset_overflow :
  valid_buffer (constant_buffer 0) /\
  valid_buffer (add_offset (2 ^ 24) (constant_buffer 0)) /\
  m_latest_dba_spl
    (process rfft_reference (SPL_Meter_ctor [] []) (constant_buffer 0)) = 0 /\
  0 < m_latest_dba_spl
        (process rfft_reference (SPL_Meter_ctor [] [])
                 (add_offset (2 ^ 24) (constant_buffer 0))).
Proof.
  split; [| split; [| split]].
  - apply valid_bufferb_spec. vm_compute. reflexivity.
  - apply valid_bufferb_spec. vm_compute. reflexivity.
  - rewrite process_latest.
    rewrite (buffer_energy_constant rfft_reference 0 rfft_reference_zero) by lia.
    apply energy_to_dba_silence. lra.
  - replace (add_offset (2 ^ 24) (constant_buffer 0))
      with (constant_buffer (2 ^ 24)) by reflexivity.
    rewrite process_latest. apply energy_to_dba_loud, overflow_buffer_energy.
Qed.





(** C9.  The window table lists 226 initialisers and its last 30 entries
    are zero-initialised, so after centring and windowing the inputs 226 to
    255 of the transform are exactly 0, whatever the samples. *)
Theorem fft_input_tail_zero
        (fft : list R -> list R) (m : SPL_Meter) (raw_buffer : list Z) :
  length HANN_WINDOW_initializers = 226%nat /\
  skipn 226 HANN_WINDOW_LUT = repeat 0%Q 30 /\
  skipn 226 (m_fft_input_buffer (fill_fft_input m raw_buffer)) = repeat 0 30 /\
  skipn 226 (m_fft_input_buffer (process fft m raw_buffer)) = repeat 0 30.
Proof.
  split; [reflexivity | split; [reflexivity | split]].
  - apply windowed_input_tail.
  - rewrite process_fft_input. apply windowed_input_tail.
Qed.

(** C10.  The perceptual weight of every bin from 64 to 127 is 0, so these
    bins add nothing: the energy is the sum over bins 1 to 63 alone, and two
    spectra that agree on slots 0 to 127 have the same energy. *)
Theorem upper_half_bins_weightless :
  (forall i, (64 <= i <= 127)%nat -> lut A_WEIGHTING_LUT_SQUARED i = 0) /\
  (forall (fft_output : list R) (i : nat),
     (64 <= i <= 127)%nat -> weighted_mag_sq fft_output i = 0) /\
  (forall fft_output : list R,
     total_energy fft_output = sum_bins (weighted_mag_sq fft_output) 1 63) /\
  (forall out out' : list R,
     (forall j, (j < 128)%nat -> nth j out 0 = nth j out' 0) ->
     total_energy out = total_energy out').
Proof.
  split; [| split; [| split]].
  - intros i Hi. apply a_weighting_upper_zero. lia.
  - intros out i Hi. apply weighted_mag_sq_upper. lia.
  - apply total_energy_lower_half.
  - intros out out' H. rewrite !total_energy_lower_half.
    apply sum_bins_ext. intros i Hi.
    unfold weighted_mag_sq. cbv zeta.
    rewrite (H (2 * i)%nat), (H (2 * i + 1)%nat) by lia. reflexivity.
Qed.

Lemma upper_half_bins_weightless_witness :
  lut A_WEIGHTING_LUT_SQUARED 100 = 0 /\
  total_energy (repeat 1 128 ++ repeat 5 128) = total_energy (repeat 1 128).
Proof.
  split.
  - apply (proj1 upper_half_bins_weightless). lia.
  - apply (proj2 (proj2 (proj2 upper_half_bins_weightless))).
    intros j Hj. rewrite app_nth1 by (rewrite repeat_length; exact Hj).
    reflexivity.
Defined.

(** ** Further properties of the pipeline *)

Lemma weights_product_bound (i : nat) :
  (1 <= i <= 127)%nat ->
  0 <= lut A_WEIGHTING_LUT_SQUARED i * lut MIC_CORRECTION_LUT_SQUARED i <= 1.
Proof.
  intros Hi. split.
  - apply Rmult_le_pos; [apply a_weighting_nonneg | apply mic_correction_nonneg].
  - unfold lut. rewrite <- Q2R_mult, <- RMicromega.Q2R_1.
    apply Qle_Rle, Qle_bool_imp_le.
    apply (range_all_spec
             (fun j => Qle_bool (nth j A_WEIGHTING_LUT_SQUARED 0%Q *
                                 nth j MIC_CORRECTION_LUT_SQUARED 0%Q) 1) 1 127).
    + vm_compute. reflexivity.
    + lia.
Qed.

Lemma bin_power_nonneg (fft_output : list R) (i : nat) :
  0 <= bin_power fft_output i.
Proof.
  unfold bin_power.
  pose proof (pow2_ge_0 (nth (2 * i) fft_output 0)).
  pose proof (pow2_ge_0 (nth (2 * i + 1) fft_output 0)).
  lra.
Qed.

Lemma sum_bins_le (f g : nat -> R) (first count : nat) :
  (forall i, (first <= i < first + count)%nat -> f i <= g i) ->
  sum_bins f first count <= sum_bins g first count.
Proof.
  revert first. induction count as [| k IH]; intros first H.
  - simpl. lra.
  - cbn [sum_bins].
    assert (f first <= g first) by (apply H; lia).
    assert (sum_bins f (S first) k <= sum_bins g (S first) k)
      by (apply IH; intros i Hi; apply H; lia).
    lra.
Qed.

(** X1.  For every transform and buffer the accumulated energy lies between
    0 and the unweighted power of bins 1 to 63: no weight of the loop is
    negative and no product of the two weights exceeds 1.  So the branch for
    [total_energy <= 0] runs exactly when the energy is 0. *)
Theorem buffer_energy_bounds (fft : list R -> list R) (raw_buffer : list Z) :
  0 <= buffer_energy fft raw_buffer
    <= sum_bins (bin_power (fft (windowed_input raw_buffer))) 1 63 /\
  (energy_conversion (buffer_energy fft raw_buffer) = Silence <->
   buffer_energy fft raw_buffer = 0).
Proof.
  pose proof (total_energy_nonneg (fft (windowed_input raw_buffer))) as H0.
  split; [split |].
  - exact H0.
  - unfold buffer_energy. rewrite total_energy_lower_half.
    apply sum_bins_le. intros i Hi. rewrite weighted_mag_sq_power.
    pose proof (weights_product_bound i ltac:(lia)) as Hw.
    pose proof (bin_power_nonneg (fft (windowed_input raw_buffer)) i) as Hp.
    nra.
  - fold (buffer_energy fft raw_buffer) in H0. split.
    + intros H. destruct (Rle_dec (buffer_energy fft raw_buffer) 0) as [Hle | Hgt].
      * lra.
      * apply Rnot_le_lt in Hgt.
        rewrite energy_conversion_logarithm in H by exact Hgt. discriminate.
    + intros H. apply energy_conversion_silence. lra.
Qed.

(** X2.  Slots 0 and 1 of the packed spectrum (the DC bin and the value
    packed beside it) and slots 128 to 255 never reach the energy: spectra
    that agree on slots 2 to 127 have the same energy. *)
Theorem energy_reads_slots_2_to_127 (out out' : list R) :
  (forall j, (2 <= j < 128)%nat -> nth j out 0 = nth j out' 0) ->
  total_energy out = total_energy out'.
Proof.
  intros H. rewrite !total_energy_lower_half.
  apply sum_bins_ext. intros i Hi.
  unfold weighted_mag_sq. cbv zeta.
  rewrite (H (2 * i)%nat), (H (2 * i + 1)%nat) by lia. reflexivity.
Qed.

Lemma energy_reads_slots_2_to_127_witness :
  total_energy (7 :: 9 :: repeat 1 126 ++ repeat 5 128) =
  total_energy (0 :: 0 :: repeat 1 126).
Proof.
  apply energy_reads_slots_2_to_127. intros j Hj.
  destruct j as [| [| j]]; [lia | lia |].
  cbn [nth]. rewrite app_nth1 by (rewrite repeat_length; lia).
  reflexivity.
Defined.

Lemma hann_head_zero : lut HANN_WINDOW_LUT 0 = 0.
Proof. apply lut_zero. vm_compute. reflexivity. Qed.

(** X3.  The window coefficient is 0 at index 0 and at indices 226 to 255,
    so these 31 samples reach the result through the 32-bit sample sum
    alone: two buffers with the same sum that agree on the samples 1 to 225
    give the same transform input and the same instantaneous level. *)
Theorem windowed_out_samples
        (fft : list R -> list R) (m m' : SPL_Meter) (raw raw' : list Z) :
  buffer_sum raw = buffer_sum raw' ->
  (forall i, (1 <= i <= 225)%nat -> raw_at raw i = raw_at raw' i) ->
  m_fft_input_buffer (process fft m raw) = m_fft_input_buffer (process fft m' raw') /\
  m_latest_dba_spl (process fft m raw) = m_latest_dba_spl (process fft m' raw').
Proof.
  intros Hsum Hmid.
  assert (E : windowed_input raw = windowed_input raw').
  { unfold windowed_input. apply map_ext_in. intros i _.
    destruct (Nat.eq_dec i 0) as [-> | Hne].
    - rewrite hann_head_zero. ring.
    - destruct (Nat.lt_ge_cases i 226) as [Hlt | Hge].
      + unfold centered_sample, dynamic_dc_offset.
        rewrite Hsum, (Hmid i) by lia. reflexivity.
      + rewrite hann_tail_zero by exact Hge. ring. }
  split.
  - rewrite !process_fft_input. exact E.
  - rewrite !process_latest. unfold buffer_energy. rewrite E. reflexivity.
Qed.

Lemma windowed_out_samples_witness :
  m_fft_input_buffer
    (process rfft_reference (SPL_Meter_ctor [] []) (impulse_buffer 2048 256)) =
  m_fft_input_buffer
    (process rfft_reference (SPL_Meter_ctor [] [])
       (set_sample (set_sample (impulse_buffer 2048 256) 0 2148) 255 1948)) /\
  m_latest_dba_spl
    (process rfft_reference (SPL_Meter_ctor [] []) (impulse_buffer 2048 256)) =
  m_latest_dba_spl
    (process rfft_reference (SPL_Meter_ctor [] [])
       (set_sample (set_sample (impulse_buffer 2048 256) 0 2148) 255 1948)).
Proof.
  apply windowed_out_samples.
  - vm_compute. reflexivity.
  - intros i Hi.
    apply Z.eqb_eq.
    apply (range_all_spec
             (fun j => (raw_at (impulse_buffer 2048 256) j =?
                        raw_at (set_sample (set_sample (impulse_buffer 2048 256)
                                                       0 2148) 255 1948) j)%Z)
             1 225).
    + vm_compute. reflexivity.
    + lia.
Defined.

Lemma fold_add_upper (f : nat -> Z) (b : Z) (l : list nat) (s : Z) :
  (forall i, f i <= b)%Z ->
  (fold_left (fun sum i => (sum + f i)%Z) l s <= s + b * Z.of_nat (length l))%Z.
Proof.
  intros Hf. revert s. induction l as [| a l IH]; intros s; cbn [fold_left length].
  - lia.
  - specialize (IH (s + f a)%Z). specialize (Hf a). lia.
Qed.

Lemma raw_at_uint32 (raw_buffer : list Z) (i : nat) :
  Forall is_uint32 raw_buffer -> (raw_at raw_buffer i <= 2 ^ 32 - 1)%Z.
Proof.
  intros H. unfold raw_at.
  destruct (Nat.lt_ge_cases i (length raw_buffer)) as [Hlt | Hge].
  - rewrite Forall_forall in H.
    pose proof (H (nth i raw_buffer 0%Z) (nth_In _ _ Hlt)) as Hx.
    unfold is_uint32 in Hx. lia.
  - rewrite nth_overflow by exact Hge. lia.
Qed.

Lemma true_sum_upper (raw_buffer : list Z) :
  Forall is_uint32 raw_buffer ->
  (true_sum raw_buffer <= 256 * (2 ^ 32 - 1))%Z.
Proof.
  intros Hu. unfold true_sum.
  apply Z.le_trans
    with (0 + (2 ^ 32 - 1) * Z.of_nat (length (seq 0 (Z.to_nat NUM_SAMPLES))))%Z.
  - apply fold_add_upper. intros j. apply raw_at_uint32, Hu.
  - rewrite length_seq, num_samples_nat. lia.
Qed.

Lemma true_sum_below (raw_buffer : list Z) (b : Z) :
  length raw_buffer = Z.to_nat NUM_SAMPLES ->
  Forall is_uint32 raw_buffer ->
  Forall (fun x => (x < b)%Z) raw_buffer ->
  (true_sum raw_buffer <= (b - 1) * 256)%Z.
Proof.
  intros Hlen Hu Hall. unfold true_sum.
  pose proof (fold_add_range (raw_at raw_buffer) 0 (b - 1)
                (seq 0 (Z.to_nat NUM_SAMPLES))) as Hr.
  rewrite length_seq in Hr.
  replace (Z.of_nat (Z.to_nat NUM_SAMPLES)) with 256%Z in Hr by reflexivity.
  apply Hr. intros i Hi. apply in_seq in Hi.
  split; [apply raw_at_nonneg, Hu |].
  rewrite Forall_forall in Hall.
  assert (Hin : In (raw_at raw_buffer i) raw_buffer).
  { unfold raw_at. apply nth_In. lia. }
  specialize (Hall _ Hin). cbv beta in Hall. lia.
Qed.

(** X4.  What the 32-bit accumulator of the first loop ends with, for 256
    [uint32_t] samples: the true sum of the samples minus [2^32] for each
    time it wrapped, which happens between 0 and 255 times; the result is a
    [uint32_t] value again, and it is the true sum itself when every sample
    is below [2^24]. *)
Theorem buffer_sum_wrap_count (raw_buffer : list Z) :
  valid_buffer raw_buffer ->
  buffer_sum raw_buffer =
    (true_sum raw_buffer - 2 ^ 32 * wrap_count raw_buffer)%Z /\
  (0 <= wrap_count raw_buffer <= 255)%Z /\
  is_uint32 (buffer_sum raw_buffer) /\
  (Forall (fun x => (x < 2 ^ 24)%Z) raw_buffer ->
   wrap_count raw_buffer = 0%Z /\ buffer_sum raw_buffer = true_sum raw_buffer).
Proof.
  intros [Hlen Hu].
  pose proof (true_sum_nonneg raw_buffer Hu) as H0.
  pose proof (true_sum_upper raw_buffer Hu) as Hup.
  split; [| split; [| split]].
  - rewrite buffer_sum_wraps. unfold wrap32, wrap_count.
    apply Z.mod_eq. lia.
  - unfold wrap_count. split.
    + apply Z.div_pos; lia.
    + apply Z.lt_succ_r. apply Z.div_lt_upper_bound; lia.
  - rewrite buffer_sum_wraps. unfold wrap32, is_uint32.
    apply Z.mod_pos_bound. lia.
  - intros Hsmall.
    pose proof (true_sum_below raw_buffer (2 ^ 24) Hlen Hu Hsmall) as Hb.
    split.
    + unfold wrap_count. apply Z.div_small. lia.
    + apply buffer_sum_exact. lia.
Qed.

Lemma buffer_sum_wrap_count_witness :
  buffer_sum (constant_buffer (2 ^ 24)) =
    (true_sum (constant_buffer (2 ^ 24))
     - 2 ^ 32 * wrap_count (constant_buffer (2 ^ 24)))%Z /\
  wrap_count (constant_buffer (2 ^ 24)) = 1%Z /\
  buffer_sum (impulse_buffer 2048 256) = true_sum (impulse_buffer 2048 256).
Proof.
  split; [| split].
  - apply (buffer_sum_wrap_count (constant_buffer (2 ^ 24))).
    apply valid_bufferb_spec. vm_compute. reflexivity.
  - vm_compute. reflexivity.
  - apply (buffer_sum_wrap_count (impulse_buffer 2048 256)).
    + apply valid_bufferb_spec. vm_compute. reflexivity.
    + apply Forall_forall. intros x Hx.
      assert (Hc : forallb (fun y => (y <? 2 ^ 24)%Z) (impulse_buffer 2048 256) = true)
        by (vm_compute; reflexivity).
      rewrite forallb_forall in Hc. specialize (Hc x Hx). lia.
Defined.

Lemma centered_sum (g : nat -> Z) (d : R) (l : list nat) :
  Rlist_sum (map (fun i => IZR (g i) - d) l) =
  IZR (fold_left (fun sum i => (sum + g i)%Z) l 0%Z) - INR (length l) * d.
Proof.
  induction l as [| a l IH].
  - simpl. ring.
  - cbn [map Rlist_sum fold_right fold_left].
    fold (Rlist_sum (map (fun i => IZR (g i) - d) l)). rewrite IH.
    rewrite (fold_add_start g l (0 + g a)%Z), plus_IZR, plus_IZR.
    change (length (a :: l)) with (S (length l)). rewrite S_INR.
    simpl (IZR 0). ring.
Qed.

Lemma mean_algebra (s : R) : s - 256 * (s / 256) = 0.
Proof. field. Qed.

Lemma centered_signal_sum (raw_buffer : list Z) :
  Rlist_sum (centered_signal raw_buffer) =
  IZR (true_sum raw_buffer) - 256 * dynamic_dc_offset raw_buffer.
Proof.
  unfold centered_signal, centered_sample, true_sum.
  rewrite (centered_sum (raw_at raw_buffer) (dynamic_dc_offset raw_buffer)).
  rewrite length_seq.
  replace (INR (Z.to_nat NUM_SAMPLES)) with 256
    by (rewrite INR_IZR_INZ; reflexivity).
  reflexivity.
Qed.

(** X5.  On the range the hardware delivers, 256 codes of the 12-bit
    converter, the 32-bit sum cannot wrap: the offset subtracted is the exact
    mean of the samples and lies between 0 and 4095, the centred samples sum
    to zero, and each of them lies between -4095 and 4095. *)
Theorem adc_range_centering (raw_buffer : list Z) :
  adc_buffer raw_buffer ->
  buffer_sum raw_buffer = true_sum raw_buffer /\
  dynamic_dc_offset raw_buffer = IZR (true_sum raw_buffer) / 256 /\
  0 <= dynamic_dc_offset raw_buffer <= 4095 /\
  Rlist_sum (centered_signal raw_buffer) = 0 /\
  (forall i, (i < 256)%nat -> -4095 <= centered_sample raw_buffer i <= 4095).
Proof.
  intros H. pose proof (true_sum_adc raw_buffer H) as Hs.
  assert (Hb : buffer_sum raw_buffer = true_sum raw_buffer)
    by (apply buffer_sum_exact; lia).
  assert (Hd : dynamic_dc_offset raw_buffer = IZR (true_sum raw_buffer) / 256).
  { unfold dynamic_dc_offset. rewrite Hb. reflexivity. }
  assert (Hr : 0 <= dynamic_dc_offset raw_buffer <= 4095).
  { rewrite Hd. destruct Hs as [Hs0 Hs1].
    apply IZR_le in Hs0, Hs1. rewrite mult_IZR in Hs1. lra. }
  split; [exact Hb |]. split; [exact Hd |]. split; [exact Hr |]. split.
  - rewrite centered_signal_sum, Hd. apply mean_algebra.
  - intros i Hi. unfold centered_sample.
    pose proof (raw_at_adc raw_buffer i H Hi) as [Hx0 Hx1].
    apply IZR_le in Hx0, Hx1. lra.
Qed.

Lemma adc_range_centering_witness :
  buffer_sum (impulse_buffer 2048 256) = true_sum (impulse_buffer 2048 256) /\
  dynamic_dc_offset (impulse_buffer 2048 256) =
    IZR (true_sum (impulse_buffer 2048 256)) / 256 /\
  0 <= dynamic_dc_offset (impulse_buffer 2048 256) <= 4095 /\
  Rlist_sum (centered_signal (impulse_buffer 2048 256)) = 0 /\
  (forall i, (i < 256)%nat ->
     -4095 <= centered_sample (impulse_buffer 2048 256) i <= 4095).
Proof.
  apply adc_range_centering. split.
  - reflexivity.
  - unfold impulse_buffer. apply Forall_app. split.
    + apply Forall_forall. intros x Hx. apply repeat_spec in Hx. subst x.
      unfold ADC_RESOLUTION. lia.
    + constructor.
      * unfold ADC_RESOLUTION. lia.
      * apply Forall_forall. intros x Hx. apply repeat_spec in Hx. subst x.
        unfold ADC_RESOLUTION. lia.
Defined.

Lemma log10f_mult (x y : R) :
  0 < x -> 0 < y -> log10f (x * y) = log10f x + log10f y.
Proof.
  intros Hx Hy. unfold log10f. rewrite ln_mult by assumption.
  pose proof ln10_pos. field. lra.
Qed.

Lemma log10f_sqrt (x : R) : 0 < x -> log10f (sqrt x) = log10f x / 2.
Proof.
  intros Hx. unfold log10f.
  pose proof (sqrt_lt_R0 x Hx) as Hs.
  assert (E : ln x = ln (sqrt x) + ln (sqrt x)).
  { rewrite <- ln_mult by exact Hs. rewrite sqrt_sqrt by lra. reflexivity. }
  rewrite E. pose proof ln10_pos. field. lra.
Qed.

Lemma mean_sq_adc_scaled (k energy : R) :
  mean_sq_adc (k * energy) = k * mean_sq_adc energy.
Proof.
  unfold mean_sq_adc, NUM_SAMPLES. simpl (256 * 256)%Z. field.
Qed.

(** X6.  The decibel law of the conversion: multiplying a positive energy
    by [k > 0] adds exactly [10 * log10 k] to the level, so ten times the
    energy reads 10 dB higher whatever the calibration constants. *)
Theorem energy_to_dba_scaling (k energy : R) :
  0 < k -> 0 < energy ->
  energy_to_dba (k * energy) = energy_to_dba energy + 10 * log10f k /\
  energy_to_dba (10 * energy) = energy_to_dba energy + 10.
Proof.
  intros Hk He.
  assert (Hlaw : forall c, 0 < c ->
            energy_to_dba (c * energy) = energy_to_dba energy + 10 * log10f c).
  { intros c Hc.
    assert (Hce : 0 < c * energy) by (apply Rmult_lt_0_compat; assumption).
    rewrite !energy_to_dba_positive_energy by assumption.
    rewrite !log_argument_factor, mean_sq_adc_scaled.
    pose proof (mean_sq_adc_pos energy He) as Hm.
    pose proof conversion_gain_pos as Hg.
    rewrite sqrt_mult by lra.
    pose proof (sqrt_lt_R0 c Hc) as Hsc.
    pose proof (sqrt_lt_R0 _ Hm) as Hsm.
    rewrite Rmult_assoc.
    rewrite (log10f_mult (sqrt c)) by (try apply Rmult_lt_0_compat; assumption).
    rewrite log10f_sqrt by exact Hc. lra. }
  split.
  - apply Hlaw, Hk.
  - rewrite Hlaw by lra. unfold log10f. pose proof ln10_pos.
    replace (ln 10 / ln 10) with 1 by (field; lra). lra.
Qed.

Lemma energy_to_dba_scaling_witness :
  energy_to_dba (4 * 1) = energy_to_dba 1 + 10 * log10f 4 /\
  energy_to_dba (10 * 1) = energy_to_dba 1 + 10.
Proof.
  apply energy_to_dba_scaling; lra.
Defined.

Lemma sensitivity_lower : 1 / 100 <= sensitivity_V_Pa.
Proof.
  unfold sensitivity_V_Pa, powf, Rpower.
  replace (1 / 100) with (exp (-2 * ln 10)).
  - pose proof ln10_pos as Hl.
    destruct (Req_dec (-2 * ln 10) (-38 / 20 * ln 10)) as [-> | _]; [lra |].
    left. apply exp_increasing. lra.
  - replace (-2 * ln 10) with (- (ln 10 + ln 10)) by ring.
    rewrite exp_Ropp, exp_plus, exp_ln by lra. field.
Qed.

(** X7.  The silence branch does not continue the logarithmic branch: an
    energy of 0 is reported as level 0, while every positive energy up to 1
    is reported below 0.  The level therefore drops when a silent input
    becomes a faint one. *)
Theorem faint_energy_below_silence (energy : R) :
  0 < energy -> energy <= 1 ->
  energy_to_dba energy < 0 /\ energy_to_dba 0 = 0.
Proof.
  intros H0 H1. split; [| apply energy_to_dba_silence; lra].
  rewrite energy_to_dba_positive_energy by exact H0.
  pose proof (log_argument_pos energy H0) as Hpos.
  assert (Harg : pressure_Pa energy / 20e-6 < 31).
  { rewrite log_argument_factor.
    assert (Hr : sqrt (mean_sq_adc energy) <= 0.0056).
    { replace 0.0056 with (sqrt (0.0056 * 0.0056)) by (apply sqrt_square; lra).
      apply sqrt_le_1_alt. unfold mean_sq_adc, NUM_SAMPLES. simpl (256 * 256)%Z.
      lra. }
    pose proof (sqrt_pos (mean_sq_adc energy)) as Hr0.
    assert (Hg : ADC_REF_VOLTAGE / IZR ADC_RESOLUTION / sensitivity_V_Pa / 20e-6
                 <= 4029).
    { pose proof sensitivity_pos as Hs. pose proof sensitivity_lower as Hs1.
      unfold ADC_REF_VOLTAGE, ADC_RESOLUTION.
      replace (3.3 / 4096 / sensitivity_V_Pa / 20e-6)
        with ((3.3 / 4096 / 20e-6) * / sensitivity_V_Pa) by (field; lra).
      assert (/ sensitivity_V_Pa <= 100).
      { replace 100 with (/ (1 / 100)) by field.
        apply Rinv_le_contravar; lra. }
      nra. }
    pose proof conversion_gain_pos as Hg0.
    nra. }
  assert (Hlog : log10f (pressure_Pa energy / 20e-6) < 3 / 2).
  { unfold log10f. pose proof ln10_pos as Hl.
    assert (Hln : ln (pressure_Pa energy / 20e-6) < ln 31)
      by (apply ln_increasing; assumption).
    assert (H31 : ln 31 + ln 31 < ln 10 + (ln 10 + ln 10)).
    { rewrite <- !ln_mult by lra. apply ln_increasing; lra. }
    apply Rmult_lt_reg_r with (ln 10); [exact Hl |].
    replace (ln (pressure_Pa energy / 20e-6) / ln 10 * ln 10)
      with (ln (pressure_Pa energy / 20e-6)) by (field; lra).
    lra. }
  unfold CALIBRATION_OFFSET_DB. lra.
Qed.

Lemma faint_energy_below_silence_witness :
  energy_to_dba 1 < 0 /\ energy_to_dba 0 = 0.
Proof.
  apply faint_energy_below_silence; lra.
Defined.

Lemma ema_update_between (lo hi latest smoothed : R) :
  lo <= latest <= hi -> lo <= smoothed <= hi ->
  lo <= ema_update latest smoothed <= hi.
Proof.
  intros Hl Hs. unfold ema_update, SMOOTHING_FACTOR. lra.
Qed.

Lemma process_all_smoothed_range
      (fft : list R -> list R) (lo hi : R) (buffers : list (list Z)) :
  Forall (fun raw => lo <= buffer_level fft raw <= hi) buffers ->
  forall m : SPL_Meter,
    lo <= m_smoothed_dba_spl m <= hi ->
    lo <= m_smoothed_dba_spl (process_all fft m buffers) <= hi.
Proof.
  unfold process_all.
  induction 1 as [| raw buffers Hraw _ IH]; intros m Hm; cbn [fold_left].
  - exact Hm.
  - apply IH. rewrite process_smoothed.
    apply ema_update_between; assumption.
Qed.

(** X8.  The displayed value never leaves the range of what went into it:
    if the smoothed level starts within [lo, hi] and the instantaneous
    level of every processed buffer lies within [lo, hi], then after any
    sequence of [process] calls [getSmoothedDbaSpl] is within [lo, hi]. *)
Theorem smoothed_level_stays_in_range
        (fft : list R -> list R) (m : SPL_Meter) (lo hi : R)
        (buffers : list (list Z)) :
  lo <= getSmoothedDbaSpl m <= hi ->
  Forall (fun raw => lo <= buffer_level fft raw <= hi) buffers ->
  lo <= getSmoothedDbaSpl (process_all fft m buffers) <= hi.
Proof.
  intros Hm Hall. unfold getSmoothedDbaSpl in *.
  apply process_all_smoothed_range; assumption.
Qed.

Lemma smoothed_level_stays_in_range_witness :
  0 <= getSmoothedDbaSpl
         (process_all rfft_reference (mkSPL_Meter 70 40 [] [])
            [constant_buffer 2048; constant_buffer 100; constant_buffer 0])
    <= 50.
Proof.
  apply smoothed_level_stays_in_range.
  - unfold getSmoothedDbaSpl. cbn [m_smoothed_dba_spl]. lra.
  - assert (Hq : forall c, (0 <= c < 2 ^ 24)%Z ->
               0 <= buffer_level rfft_reference (constant_buffer c) <= 50).
    { intros c Hc. unfold buffer_level.
      rewrite (buffer_energy_constant rfft_reference c rfft_reference_zero Hc).
      rewrite energy_to_dba_silence by lra. lra. }
    apply Forall_cons; [apply Hq; lia |].
    apply Forall_cons; [apply Hq; lia |].
    apply Forall_cons; [apply Hq; lia |].
    apply Forall_nil.
Defined.

(** X9.  Silence lets the reading decay without undershoot: processing [n]
    constant buffers (sum not wrapping, transform mapping zero to zero)
    multiplies the smoothed level by [0.9^n]; from a non-negative level it
    stays non-negative and never rises. *)
Theorem silence_decay
        (fft : list R -> list R) (m : SPL_Meter) (c : Z) (n : nat) :
  (forall j, nth j (fft (repeat 0 256)) 0 = 0) ->
  (0 <= c < 2 ^ 24)%Z ->
  getSmoothedDbaSpl (process_repeat fft n m (constant_buffer c)) =
    0.9 ^ n * getSmoothedDbaSpl m /\
  (0 <= getSmoothedDbaSpl m ->
   0 <= getSmoothedDbaSpl (process_repeat fft n m (constant_buffer c))
     <= getSmoothedDbaSpl m).
Proof.
  intros Hz Hc. unfold getSmoothedDbaSpl.
  assert (E : m_smoothed_dba_spl (process_repeat fft n m (constant_buffer c)) =
              0.9 ^ n * m_smoothed_dba_spl m).
  { rewrite process_repeat_smoothed.
    rewrite (buffer_energy_constant fft c Hz Hc).
    rewrite energy_to_dba_silence by lra.
    pose proof (ema_iterate_error 0 (m_smoothed_dba_spl m) n) as He.
    unfold SMOOTHING_FACTOR in He.
    replace (1 - 0.1) with 0.9 in He by lra. lra. }
  split; [exact E |].
  intros Hs. rewrite E.
  assert (Hp : 0 <= 0.9 ^ n <= 1).
  { split; [apply pow_le; lra |].
    rewrite <- (pow1 n). apply pow_incr. lra. }
  nra.
Qed.

Lemma silence_decay_witness :
  getSmoothedDbaSpl
    (process_repeat rfft_reference 3 (mkSPL_Meter 70 40 [] [])
                    (constant_buffer 2048)) =
  0.9 ^ 3 * getSmoothedDbaSpl (mkSPL_Meter 70 40 [] []) /\
  (0 <= getSmoothedDbaSpl (mkSPL_Meter 70 40 [] []) ->
   0 <= getSmoothedDbaSpl
          (process_repeat rfft_reference 3 (mkSPL_Meter 70 40 [] [])
                          (constant_buffer 2048))
     <= getSmoothedDbaSpl (mkSPL_Meter 70 40 [] [])).
Proof.
  apply silence_decay.
  - exact rfft_reference_zero.
  - lia.
Defined.

Lemma decay_after_22 (n : nat) : (22 <= n)%nat -> 0.9 ^ n <= 0.1.
Proof.
  intros Hn. replace n with (22 + (n - 22))%nat by lia.
  rewrite pow_add.
  assert (H22 : 0.9 ^ 22 <= 0.1) by (simpl; lra).
  assert (H0 : 0 <= 0.9 ^ 22) by (apply pow_le; lra).
  assert (Hk : 0 <= 0.9 ^ (n - 22) <= 1).
  { split; [apply pow_le; lra |].
    rewrite <- (pow1 (n - 22)). apply pow_incr. lra. }
  nra.
Qed.

(** X10.  Start-up of the display: a freshly constructed meter reads 0;
    after [n] buffers of the same level [L] it reads [L * (1 - 0.9^n)], one
    tenth of [L] after the first buffer, and from the 22nd buffer on it is
    within 10 percent of [L]. *)
Theorem startup_reading
        (fft : list R -> list R) (b_in b_out : list R)
        (raw_buffer : list Z) (n : nat) :
  getSmoothedDbaSpl (SPL_Meter_ctor b_in b_out) = 0 /\
  getSmoothedDbaSpl (process_repeat fft n (SPL_Meter_ctor b_in b_out) raw_buffer) =
    buffer_level fft raw_buffer * (1 - 0.9 ^ n) /\
  getSmoothedDbaSpl (process fft (SPL_Meter_ctor b_in b_out) raw_buffer) =
    0.1 * buffer_level fft raw_buffer /\
  ((22 <= n)%nat ->
   Rabs (buffer_level fft raw_buffer -
         getSmoothedDbaSpl
           (process_repeat fft n (SPL_Meter_ctor b_in b_out) raw_buffer))
   <= 0.1 * Rabs (buffer_level fft raw_buffer)).
Proof.
  unfold getSmoothedDbaSpl, buffer_level.
  set (L := energy_to_dba (buffer_energy fft raw_buffer)).
  assert (E : m_smoothed_dba_spl
                (process_repeat fft n (SPL_Meter_ctor b_in b_out) raw_buffer) =
              L * (1 - 0.9 ^ n)).
  { rewrite process_repeat_smoothed. fold L.
    cbn [SPL_Meter_ctor m_smoothed_dba_spl].
    pose proof (ema_iterate_error L 0 n) as He.
    unfold SMOOTHING_FACTOR in He.
    replace (1 - 0.1) with 0.9 in He by lra. lra. }
  split; [reflexivity |]. split; [exact E |]. split.
  - rewrite process_smoothed. fold L.
    cbn [SPL_Meter_ctor m_smoothed_dba_spl].
    unfold ema_update, SMOOTHING_FACTOR. lra.
  - intros Hn. rewrite E.
    replace (L - L * (1 - 0.9 ^ n)) with (0.9 ^ n * L) by ring.
    rewrite Rabs_mult.
    rewrite (Rabs_pos_eq (0.9 ^ n)) by (apply pow_le; lra).
    pose proof (decay_after_22 n Hn). pose proof (Rabs_pos L).
    apply Rmult_le_compat_r; assumption.
Qed.

Lemma startup_reading_witness :
  Rabs (buffer_level rfft_reference (impulse_buffer 2048 256) -
        getSmoothedDbaSpl
          (process_repeat rfft_reference 22 (SPL_Meter_ctor [] [])
                          (impulse_buffer 2048 256)))
  <= 0.1 * Rabs (buffer_level rfft_reference (impulse_buffer 2048 256)).
Proof.
  apply (startup_reading rfft_reference [] [] (impulse_buffer 2048 256) 22).
  lia.
Defined.

Lemma zero_level_energy_pos : 0 < zero_level_energy.
Proof.
  unfold zero_level_energy.
  pose proof conversion_gain_pos as Hg.
  assert (0 < Rpower 10 (3 / 2)) by (unfold Rpower; apply exp_pos).
  assert (0 < Rpower 10 (3 / 2) /
              (ADC_REF_VOLTAGE / IZR ADC_RESOLUTION / sensitivity_V_Pa / 20e-6))
    by (apply Rdiv_lt_0_compat; assumption).
  apply Rmult_lt_0_compat; [lra |]. apply pow_lt. assumption.
Qed.

Lemma zero_level_energy_level : energy_to_dba zero_level_energy = 0.
Proof.
  rewrite energy_to_dba_positive_energy by exact zero_level_energy_pos.
  rewrite log_argument_factor.
  pose proof conversion_gain_pos as Hg.
  set (G := ADC_REF_VOLTAGE / IZR ADC_RESOLUTION / sensitivity_V_Pa / 20e-6) in *.
  assert (HT : 0 < Rpower 10 (3 / 2)) by (unfold Rpower; apply exp_pos).
  assert (Hq : 0 < Rpower 10 (3 / 2) / G) by (apply Rdiv_lt_0_compat; assumption).
  assert (Hm : mean_sq_adc zero_level_energy =
               (Rpower 10 (3 / 2) / G) * (Rpower 10 (3 / 2) / G)).
  { unfold mean_sq_adc, zero_level_energy, NUM_SAMPLES. fold G.
    simpl (256 * 256)%Z. field. lra. }
  rewrite Hm, sqrt_square by lra.
  replace (Rpower 10 (3 / 2) / G * G) with (Rpower 10 (3 / 2)) by (field; lra).
  unfold log10f, Rpower. rewrite ln_exp.
  pose proof ln10_pos. unfold CALIBRATION_OFFSET_DB.
  replace (3 / 2 * ln 10 / ln 10) with (3 / 2) by (field; lra). lra.
Qed.

(** X11.  A reading of 0 does not single out silence: there is one positive
    energy, above 1, whose level is exactly 0 like that of the silence
    branch; positive energies below it read negative and those above it
    read positive. *)
Theorem zero_level_crossing (energy : R) :
  0 < energy ->
  1 < zero_level_energy /\
  energy_to_dba zero_level_energy = 0 /\
  (energy < zero_level_energy <-> energy_to_dba energy < 0) /\
  (zero_level_energy < energy <-> 0 < energy_to_dba energy).
Proof.
  intros He.
  pose proof zero_level_energy_pos as Hz.
  pose proof zero_level_energy_level as Hl.
  assert (Hlt : energy < zero_level_energy -> energy_to_dba energy < 0).
  { intros H. rewrite <- Hl. apply energy_to_dba_increasing; assumption. }
  assert (Hgt : zero_level_energy < energy -> 0 < energy_to_dba energy).
  { intros H. rewrite <- Hl. apply energy_to_dba_increasing; assumption. }
  split; [| split; [exact Hl | split; split]].
  - destruct (Rlt_le_dec 1 zero_level_energy) as [H | H]; [exact H |].
    pose proof (proj1 (faint_energy_below_silence zero_level_energy Hz H)).
    lra.
  - exact Hlt.
  - intros H. destruct (Rtotal_order energy zero_level_energy) as [Hc | [Hc | Hc]].
    + exact Hc.
    + subst energy. lra.
    + specialize (Hgt Hc). lra.
  - exact Hgt.
  - intros H. destruct (Rtotal_order energy zero_level_energy) as [Hc | [Hc | Hc]].
    + specialize (Hlt Hc). lra.
    + subst energy. lra.
    + exact Hc.
Qed.

Lemma zero_level_crossing_witness :
  1 < zero_level_energy /\
  energy_to_dba zero_level_energy = 0 /\
  (1 < zero_level_energy <-> energy_to_dba 1 < 0) /\
  (zero_level_energy < 1 <-> 0 < energy_to_dba 1).
Proof.
  apply zero_level_crossing. lra.
Defined.
